(** * Collage composition (src/core/collage.py)

    A shallow embedding of the collage module of Tile Collage Studio:
    the layout catalog, the grid geometry, the cell image fitter, the
    caption overlay and the collage assembler.

    Images are modelled symbolically: a value of type [image] records how
    a raster was obtained (a caller-supplied raster, a PIL resize, a crop,
    a fresh [Image.new], a caption overlay, a paste).  Pixel contents of
    caller rasters and font metrics are outside this module; font metrics
    are a parameter of the caption code.  PIL calls that raise are modelled
    by [None]. *)

From Stdlib Require Import ZArith List String Ascii Bool Lia.
Import ListNotations.
Open Scope Z_scope.

(** ** Enumerations and configuration *)

Inductive AnchorPosition :=
| TOP_LEFT | TOP_RIGHT | BOTTOM_LEFT | BOTTOM_RIGHT
| CENTER_LEFT | CENTER_RIGHT | CENTER.

Inductive LayoutType :=
| GRID_2X2 | GRID_3X3 | GRID_2X3 | GRID_3X2
| ROW_1X3 | ROW_1X4 | COLUMN_3X1 | COLUMN_4X1
| FEATURED.

Definition rgb : Type := (Z * Z * Z)%type.

Record LayoutConfig := {
  layout_type : LayoutType;
  anchor_position : AnchorPosition;
  padding : Z;
  border_width : Z;
  border_color : rgb;
  background_color : rgb;
  output_size : Z * Z;
  show_captions : bool;
  caption_font_size : Z;
  caption_color : rgb;
  caption_bg_opacity : Z
}.

(** The dataclass defaults of [LayoutConfig]. *)
Definition default_config : LayoutConfig := {|
  layout_type := GRID_2X2;
  anchor_position := TOP_LEFT;
  padding := 4;
  border_width := 2;
  border_color := (255, 255, 255);
  background_color := (30, 30, 30);
  output_size := (1080, 1080);
  show_captions := false;
  caption_font_size := 14;
  caption_color := (255, 255, 255);
  caption_bg_opacity := 180
|}.

(** ** Layout catalog *)

Definition get_layout_grid (layout_type : LayoutType) : Z * Z :=
  match layout_type with
  | GRID_2X2 => (2, 2)
  | GRID_3X3 => (3, 3)
  | GRID_2X3 => (2, 3)
  | GRID_3X2 => (3, 2)
  | ROW_1X3 => (1, 3)
  | ROW_1X4 => (1, 4)
  | COLUMN_3X1 => (3, 1)
  | COLUMN_4X1 => (4, 1)
  | FEATURED => (2, 2)
  end.

Definition get_panel_count (layout_type : LayoutType) : Z :=
  let '(rows, cols) := get_layout_grid layout_type in rows * cols.

Definition get_required_panel_count (layout_type : LayoutType) : Z :=
  get_panel_count layout_type - 1.

Definition suggest_layout (num_thoughts : Z) : LayoutType :=
  if num_thoughts <=? 1 then GRID_2X2
  else if num_thoughts <=? 2 then ROW_1X3
  else if num_thoughts <=? 3 then GRID_2X2
  else if num_thoughts <=? 5 then GRID_2X3
  else if num_thoughts <=? 8 then GRID_3X3
  else GRID_3X3.

(** ** Geometry *)

(** Python's [//] on ints is floor division, i.e. [Z.div]. *)
Definition get_anchor_grid_position (anchor_position : AnchorPosition)
    (rows cols : Z) : Z * Z :=
  match anchor_position with
  | TOP_LEFT => (0, 0)
  | TOP_RIGHT => (0, cols - 1)
  | BOTTOM_LEFT => (rows - 1, 0)
  | BOTTOM_RIGHT => (rows - 1, cols - 1)
  | CENTER_LEFT => (rows / 2, 0)
  | CENTER_RIGHT => (rows / 2, cols - 1)
  | CENTER => (rows / 2, cols / 2)
  end.

Definition calculate_cell_size (output_size : Z * Z) (rows cols padding : Z)
    : Z * Z :=
  let total_padding_x := padding * (cols + 1) in
  let total_padding_y := padding * (rows + 1) in
  let cell_width := (fst output_size - total_padding_x) / cols in
  let cell_height := (snd output_size - total_padding_y) / rows in
  (cell_width, cell_height).

Definition get_cell_position (row col : Z) (cell_size : Z * Z) (padding : Z)
    : Z * Z :=
  let x := padding + col * (fst cell_size + padding) in
  let y := padding + row * (snd cell_size + padding) in
  (x, y).

(** ** Images *)

(** A raster, described by the PIL operation that produced it.
    [Source] is a caller-owned raster of the given width and height
    (the tag tells rasters apart). *)
Inductive image :=
| Source (tag : nat) (w h : Z)
| Resized (im : image) (w h : Z)
| Cropped (im : image) (left top right bottom : Z)
| Blank (w h : Z) (color : rgb)
| Captioned (im : image) (caption : string) (text_x text_y bg_top : Z)
    (font_size : Z) (text_color : rgb) (bg_opacity : Z)
| Pasted (base top : image) (x y : Z).

(** [image.size]: crop has the size of its box, paste and the caption
    overlay keep the size of the image drawn on. *)
Fixpoint size (im : image) : Z * Z :=
  match im with
  | Source _ w h => (w, h)
  | Resized _ w h => (w, h)
  | Cropped _ l t r b => (r - l, b - t)
  | Blank w h _ => (w, h)
  | Captioned i _ _ _ _ _ _ _ => size i
  | Pasted b _ _ _ => size b
  end.

Definition width (im : image) : Z := fst (size im).
Definition height (im : image) : Z := snd (size im).

Notation "'let*' x ':=' e1 'in' e2" :=
  (match e1 with Some x => e2 | None => None end)
  (at level 200, x name, e1 at level 100, e2 at level 200).

(** [Image.new]: a negative size raises [ValueError]. *)
Definition new_image (w h : Z) (color : rgb) : option image :=
  if (w <? 0) || (h <? 0) then None else Some (Blank w h color).

(** [Image.resize]: a same-size resize is a copy; otherwise a size below
    one pixel raises [ValueError]. *)
Definition pil_resize (im : image) (w h : Z) : option image :=
  if (fst (size im) =? w) && (snd (size im) =? h) then Some im
  else if (w <? 1) || (h <? 1) then None
  else Some (Resized im w h).

(** [Image.crop]: a box with right < left or lower < upper raises. *)
Definition pil_crop (im : image) (l t r b : Z) : option image :=
  if (r <? l) || (b <? t) then None else Some (Cropped im l t r b).

(** [image.paste] draws in place; the result is the base image with the
    top image pasted at (x, y). *)
Definition pil_paste (base top : image) (x y : Z) : image :=
  Pasted base top x y.

(** [a / b > c / d] for [b, d <> 0]. *)
Definition frac_gt (a b c d : Z) : bool :=
  if 0 <? b * d then c * b <? a * d else a * d <? c * b.

(** ** Cell image fitter

    The aspect ratios are Python floats; they are modelled with exact
    rational arithmetic: [img_aspect > cell_aspect] is [frac_gt], and
    [int(new_height * img_aspect)], [int(new_width / img_aspect)] truncate
    the exact quotients ([Z.quot]).  A zero height or a zero target height
    is a [ZeroDivisionError], as is dividing by a zero [img_aspect]. *)
Definition scaled_size (w h target_width target_height : Z) : option (Z * Z) :=
  if (h =? 0) || (target_height =? 0) then None
  else if frac_gt w h target_width target_height then
    (* wider: fit by height and crop width *)
    let new_height := target_height in
    Some (Z.quot (new_height * w) h, new_height)
  else
    (* taller: fit by width and crop height *)
    let new_width := target_width in
    if w =? 0 then None
    else Some (new_width, Z.quot (new_width * h) w).

Definition resize_image_to_cell (im : image) (cell_size : Z * Z)
    (border_width : Z) : option image :=
  let target_width := fst cell_size - 2 * border_width in
  let target_height := snd cell_size - 2 * border_width in
  let* nwh := scaled_size (width im) (height im) target_width target_height in
  let new_width := fst nwh in
  let new_height := snd nwh in
  let* resized := pil_resize im new_width new_height in
  let left := (new_width - target_width) / 2 in
  let top := (new_height - target_height) / 2 in
  pil_crop resized left top (left + target_width) (top + target_height).

(** ** Caption overlay and collage assembler *)

Section Rendering.

(** [draw.textbbox((0, 0), text, font=font)] for the font that
    [add_caption_to_image] loads at a given size: (left, top, right,
    bottom).  Which font file exists is a property of the machine. *)
Variable text_bbox : Z -> string -> Z * Z * Z * Z.

Definition bbox_width (bb : Z * Z * Z * Z) : Z :=
  let '(x0, _, x1, _) := bb in x1 - x0.

Definition bbox_height (bb : Z * Z * Z * Z) : Z :=
  let '(_, y0, _, y1) := bb in y1 - y0.

(** [not caption or caption.startswith("[")] *)
Definition skip_caption (caption : string) : bool :=
  match caption with
  | EmptyString => true
  | String c _ => Ascii.eqb c "["%char
  end.

(** [caption[:-4] + "..."] *)
Definition shorten (caption : string) : string :=
  String.append (substring 0 (String.length caption - 4) caption) "...".

(** The loop condition [text_width > max_width and len(caption) > 10]. *)
Definition keep_truncating (max_width : Z) (st : string * Z) : bool :=
  (max_width <? snd st) && (10 <? String.length (fst st))%nat.

(** One loop iteration: shorten, then measure again. *)
Definition truncate_step (font_size : Z) (st : string * Z) : string * Z :=
  let caption := shorten (fst st) in
  (caption, bbox_width (text_bbox font_size caption)).

(** The [while] loop on (caption, text_width), run with a step budget;
    [add_caption_to_image] runs it with the caption's length as budget. *)
Fixpoint truncate_loop (fuel : nat) (font_size max_width : Z)
    (st : string * Z) : string * Z :=
  match fuel with
  | O => st
  | S fuel' =>
      if keep_truncating max_width st
      then truncate_loop fuel' font_size max_width (truncate_step font_size st)
      else st
  end.

(** Big-step semantics of the [while] loop: [loop_runs st st'] when the
    loop started in state [st] exits in state [st']. *)
Inductive loop_runs (font_size max_width : Z) : string * Z -> string * Z -> Prop :=
| loop_exit st :
    keep_truncating max_width st = false ->
    loop_runs font_size max_width st st
| loop_iter st st' :
    keep_truncating max_width st = true ->
    loop_runs font_size max_width (truncate_step font_size st) st' ->
    loop_runs font_size max_width st st'.

Definition add_caption_to_image (im : image) (caption : string)
    (font_size : Z) (text_color : rgb) (bg_opacity : Z) : image :=
  if skip_caption caption then im
  else
    let bbox := text_bbox font_size caption in
    let text_width := bbox_width bbox in
    let text_height := bbox_height bbox in
    let max_width := width im - 20 in
    let st :=
      if max_width <? text_width
      then truncate_loop (String.length caption) font_size max_width
             (caption, text_width)
      else (caption, text_width) in
    let caption := fst st in
    let text_width := snd st in
    let padding := 6 in
    let bg_top := height im - text_height - padding * 2 - 5 in
    let text_x := (width im - text_width) / 2 in
    let text_y := bg_top + padding in
    Captioned im caption text_x text_y bg_top font_size text_color bg_opacity.

(** [range(n)] *)
Definition zrange (n : Z) : list Z := map Z.of_nat (seq 0 (Z.to_nat n)).

(** The cells visited by the nested loops of [compose_collage]:
    [for row in range(rows): for col in range(cols)]. *)
Definition grid_cells (rows cols : Z) : list (Z * Z) :=
  flat_map (fun row => map (fun col => (row, col)) (zrange cols)) (zrange rows).

Section Compose.

Variables (anchor_image : image) (panels : list image) (thoughts : list string)
  (config : LayoutConfig).

(** The body of the nested loop of [compose_collage], on the state
    (panel_index, collage). *)
Definition compose_cell (cell_size anchor_rc : Z * Z) (st : nat * image)
    (rc : Z * Z) : option (nat * image) :=
  let '(panel_index, collage) := st in
  let '(row, col) := rc in
  let '(anchor_row, anchor_col) := anchor_rc in
  let pos := get_cell_position row col cell_size (padding config) in
  let bw := border_width config in
  let* chosen :=
    if (row =? anchor_row) && (col =? anchor_col) then
      let* cell_image := resize_image_to_cell anchor_image cell_size bw in
      Some (cell_image, (if show_captions config then "[Tal]"%string else ""%string),
            panel_index)
    else
      match nth_error panels panel_index with
      | Some panel =>
          let* cell_image := resize_image_to_cell panel cell_size bw in
          let caption :=
            match nth_error thoughts panel_index with
            | Some t => t
            | None => ""%string
            end in
          Some (cell_image, caption, S panel_index)
      | None =>
          let* cell_image :=
            new_image (fst cell_size - 2 * bw) (snd cell_size - 2 * bw)
              (background_color config) in
          Some (cell_image, ""%string, panel_index)
      end in
  let '(cell_image, caption, panel_index) := chosen in
  let cell_image :=
    if show_captions config && negb (String.eqb caption ""%string) then
      add_caption_to_image cell_image caption (caption_font_size config)
        (caption_color config) (caption_bg_opacity config)
    else cell_image in
  let* cell_image :=
    if 0 <? bw then
      let* bordered := new_image (fst cell_size) (snd cell_size)
                         (border_color config) in
      Some (pil_paste bordered cell_image bw bw)
    else Some cell_image in
  Some (panel_index, pil_paste collage cell_image (fst pos) (snd pos)).

Fixpoint run_cells (cell_size anchor_rc : Z * Z) (cells : list (Z * Z))
    (st : nat * image) : option (nat * image) :=
  match cells with
  | [] => Some st
  | rc :: cells' =>
      let* st' := compose_cell cell_size anchor_rc st rc in
      run_cells cell_size anchor_rc cells' st'
  end.

Definition compose_collage : option image :=
  let '(rows, cols) := get_layout_grid (layout_type config) in
  let anchor_rc := get_anchor_grid_position (anchor_position config) rows cols in
  let* collage := new_image (fst (output_size config)) (snd (output_size config))
                    (background_color config) in
  let cell_size := calculate_cell_size (output_size config) rows cols
                     (padding config) in
  let* st := run_cells cell_size anchor_rc (grid_cells rows cols) (0%nat, collage) in
  Some (snd st).

End Compose.

End Rendering.

(** The pastes drawn on a canvas, in order. *)
Fixpoint pastes (im : image) : list (image * Z * Z) :=
  match im with
  | Pasted base top x y => pastes base ++ [(top, x, y)]
  | _ => []
  end.

(** The caller raster whose pixels a cell image shows ([None] for a blank
    cell): resizes, crops and caption overlays keep it, and a bordered cell
    shows the image pasted inside the border. *)
Fixpoint content (im : image) : option image :=
  match im with
  | Source _ _ _ => Some im
  | Blank _ _ _ => None
  | Resized i _ _ | Cropped i _ _ _ _ | Captioned i _ _ _ _ _ _ _ => content i
  | Pasted _ top _ _ => content top
  end.

(** Whether a caption overlay was drawn on a cell image. *)
Fixpoint has_caption (im : image) : bool :=
  match im with
  | Captioned _ _ _ _ _ _ _ _ => true
  | Resized i _ _ | Cropped i _ _ _ _ => has_caption i
  | Pasted base top _ _ => has_caption base || has_caption top
  | _ => false
  end.

(** The anchor test of [compose_collage]:
    [row == anchor_row and col == anchor_col]. *)
Definition is_cell (r c : Z) (rc : Z * Z) : bool :=
  (fst rc =? r) && (snd rc =? c).

(** The number of cells of [cells] that are not the anchor cell. *)
Definition non_anchor_count (ar ac : Z) (cells : list (Z * Z)) : nat :=
  List.length (filter (fun rc => negb (is_cell ar ac rc)) cells).

(** The contents of the cells pasted on a canvas, in paste order. *)
Definition pasted_contents (canvas : image) : list (option image) :=
  map (fun p => content (fst (fst p))) (pastes canvas).

(** The positions of the cells pasted on a canvas, in paste order. *)
Definition pasted_positions (canvas : image) : list (Z * Z) :=
  map (fun p => (snd (fst p), snd p)) (pastes canvas).

(** The layout configuration built by the "Publish All" action of
    src/app.py for [n] generated creatives; the other fields keep the
    [LayoutConfig] defaults. *)
Definition publish_config (n : nat) : LayoutConfig := {|
  layout_type := if Nat.eqb n 4 then GRID_2X2 else ROW_1X3;
  anchor_position := anchor_position default_config;
  padding := 8;
  border_width := 0;
  border_color := border_color default_config;
  background_color := background_color default_config;
  output_size := (1080, 1080);
  show_captions := show_captions default_config;
  caption_font_size := caption_font_size default_config;
  caption_color := caption_color default_config;
  caption_bg_opacity := caption_bg_opacity default_config
|}.

(** "Publish All" in src/app.py: the anchor is the Tile image, the first
    creative is skipped and the others become the panels, their thoughts
    the captions. *)
Definition publish_collage (text_bbox : Z -> string -> Z * Z * Z * Z)
    (tal_image : image) (creatives : list (image * string)) : option image :=
  compose_collage text_bbox tal_image (map fst (tl creatives))
    (map snd (tl creatives)) (publish_config (List.length creatives)).

(** A caller-supplied raster of positive width and height. *)
Definition raster_ok (im : image) : Prop :=
  match im with
  | Source _ w h => 0 < w /\ 0 < h
  | _ => False
  end.

(** The captions [add_caption_to_image] may draw for a given caption:
    the caption itself, or a prefix of it followed by "...". *)
Definition truncated_from (caption s : string) : Prop :=
  s = caption \/
  exists pre suf, caption = String.append pre suf /\ s = String.append pre "...".

(** The caption [compose_collage] gives the panel of index [i]:
    [thoughts[i] if i < len(thoughts) else ""]. *)
Definition thought_at (thoughts : list string) (i : nat) : string :=
  match nth_error thoughts i with
  | Some t => t
  | None => ""%string
  end.

(** * Properties *)

(** ** The cell image fitter *)

Lemma pil_resize_ok (im : image) (w h : Z) :
  1 <= w -> 1 <= h ->
  exists r, pil_resize im w h = Some r /\ size r = (w, h) /\
            content r = content im /\ has_caption r = has_caption im.
Proof.
  intros Hw Hh. unfold pil_resize.
  destruct (fst (size im) =? w) eqn:E1; destruct (snd (size im) =? h) eqn:E2;
    simpl.
  - exists im. apply Z.eqb_eq in E1, E2.
    destruct (size im) as [a b] eqn:Es; simpl in *; subst. auto.
  - replace ((w <? 1) || (h <? 1)) with false
      by (symmetry; apply orb_false_iff; split; apply Z.ltb_ge; lia).
    eexists; eauto.
  - replace ((w <? 1) || (h <? 1)) with false
      by (symmetry; apply orb_false_iff; split; apply Z.ltb_ge; lia).
    eexists; eauto.
  - replace ((w <? 1) || (h <? 1)) with false
      by (symmetry; apply orb_false_iff; split; apply Z.ltb_ge; lia).
    eexists; eauto.
Qed.

(** With positive source and target sizes, the scaled size covers the
    target on both axes. *)
Lemma scaled_size_covers (w h tw th : Z) :
  0 < w -> 0 < h -> 0 < tw -> 0 < th ->
  exists nw nh, scaled_size w h tw th = Some (nw, nh) /\ tw <= nw /\ th <= nh.
Proof.
  intros Hw Hh Htw Hth. unfold scaled_size, frac_gt.
  replace ((h =? 0) || (th =? 0)) with false
    by (symmetry; apply orb_false_iff; split; apply Z.eqb_neq; lia).
  replace (0 <? h * th) with true by (symmetry; apply Z.ltb_lt; nia).
  destruct (tw * h <? w * th) eqn:E.
  - apply Z.ltb_lt in E. do 2 eexists. split; [reflexivity|].
    rewrite Z.quot_div_nonneg by nia. split; [|lia].
    apply Z.div_le_lower_bound; lia.
  - apply Z.ltb_ge in E.
    replace (w =? 0) with false by (symmetry; apply Z.eqb_neq; lia).
    do 2 eexists. split; [reflexivity|].
    rewrite Z.quot_div_nonneg by nia. split; [lia|].
    apply Z.div_le_lower_bound; lia.
Qed.

Lemma resize_image_to_cell_ok (im : image) (cell_size : Z * Z) (bw : Z) :
  0 < width im -> 0 < height im ->
  0 < fst cell_size - 2 * bw -> 0 < snd cell_size - 2 * bw ->
  exists out,
    resize_image_to_cell im cell_size bw = Some out /\
    size out = (fst cell_size - 2 * bw, snd cell_size - 2 * bw) /\
    content out = content im /\ has_caption out = has_caption im.
Proof.
  intros Hw Hh Htw Hth. unfold resize_image_to_cell.
  destruct (scaled_size_covers (width im) (height im)
              (fst cell_size - 2 * bw) (snd cell_size - 2 * bw) Hw Hh Htw Hth)
    as (nw & nh & -> & Hnw & Hnh).
  simpl fst; simpl snd.
  destruct (pil_resize_ok im nw nh) as (r & -> & Hs & Hc & Hk); try lia.
  unfold pil_crop.
  match goal with |- context [if ?c then _ else _] =>
    replace c with false by
      (symmetry; apply orb_false_iff; split; apply Z.ltb_ge; lia) end.
  eexists. split; [reflexivity|]. simpl. rewrite Hc, Hk.
  split; [f_equal; lia | auto].
Qed.

(** C1: for a source of positive size and a cell whose target size
    (cell size minus twice the border) is positive on both axes,
    [resize_image_to_cell] returns an image of exactly the target size,
    whatever the aspect ratios. *)
Theorem resize_image_to_cell_exact_size (im : image) (cell_size : Z * Z)
    (border_width : Z) :
  0 < width im -> 0 < height im ->
  0 < fst cell_size - 2 * border_width ->
  0 < snd cell_size - 2 * border_width ->
  exists out,
    resize_image_to_cell im cell_size border_width = Some out /\
    width out = fst cell_size - 2 * border_width /\
    height out = snd cell_size - 2 * border_width.
Proof.
  intros Hw Hh Htw Hth.
  destruct (resize_image_to_cell_ok im cell_size border_width Hw Hh Htw Hth)
    as (out & Hr & Hs & _ & _).
  exists out. unfold width, height. rewrite Hs. auto.
Qed.

Lemma resize_image_to_cell_exact_size_witness :
  (0 < width (Source 0 300 200) /\ 0 < height (Source 0 300 200) /\
   0 < fst (528, 528) - 2 * 4 /\ 0 < snd (528, 528) - 2 * 4) /\
  exists out,
    resize_image_to_cell (Source 0 300 200) (528, 528) 4 = Some out /\
    width out = fst (528, 528) - 2 * 4 /\ height out = snd (528, 528) - 2 * 4.
Proof.
  split; [vm_compute; repeat split; reflexivity|].
  apply (resize_image_to_cell_exact_size (Source 0 300 200) (528, 528) 4);
    vm_compute; reflexivity.
Defined.




(** ** Grid geometry *)

(** C6: with rows, cols >= 1 and padding >= 0, the cells computed by
    [calculate_cell_size] and the padding around and between them fit in
    the canvas, and the last cell (from [get_cell_position]) ends inside
    the canvas. *)
Theorem calculate_cell_size_fits (canvas_w canvas_h rows cols padding : Z) :
  1 <= rows -> 1 <= cols -> 0 <= padding ->
  let cs := calculate_cell_size (canvas_w, canvas_h) rows cols padding in
  let last := get_cell_position (rows - 1) (cols - 1) cs padding in
  cols * fst cs + (cols + 1) * padding <= canvas_w /\
  rows * snd cs + (rows + 1) * padding <= canvas_h /\
  fst last + fst cs <= canvas_w /\
  snd last + snd cs <= canvas_h.
Proof.
  intros Hr Hc Hp. unfold calculate_cell_size, get_cell_position; simpl.
  pose proof (Z.mul_div_le (canvas_w - padding * (cols + 1)) cols ltac:(lia)).
  pose proof (Z.mul_div_le (canvas_h - padding * (rows + 1)) rows ltac:(lia)).
  set (cw := (canvas_w - padding * (cols + 1)) / cols) in *.
  set (ch := (canvas_h - padding * (rows + 1)) / rows) in *.
  repeat split; nia.
Qed.

Lemma calculate_cell_size_fits_witness :
  (1 <= 2 /\ 1 <= 2 /\ 0 <= 8) /\
  (let cs := calculate_cell_size (1080, 1080) 2 2 8 in
   let last := get_cell_position (2 - 1) (2 - 1) cs 8 in
   2 * fst cs + (2 + 1) * 8 <= 1080 /\
   2 * snd cs + (2 + 1) * 8 <= 1080 /\
   fst last + fst cs <= 1080 /\
   snd last + snd cs <= 1080).
Proof.
  split; [lia|].
  apply (calculate_cell_size_fits 1080 1080 2 2 8); lia.
Defined.

(** C5 (as stated, refuted): on a 4x4 grid the center anchor resolves to
    (2, 2); the central cells are rows and columns 1 and 2, and (2, 2)
    is the bottom-right one, not the top-left one (1, 1). *)
Lemma center_anchor_bias_counterexample :
  get_anchor_grid_position CENTER 4 4 = (2, 2) /\ (2, 2) <> (4 / 2 - 1, 4 / 2 - 1).
Proof. split; [reflexivity | vm_compute; discriminate]. Qed.

(** C5 (amended): for rows, cols >= 1, CENTER resolves to
    (rows // 2, cols // 2).  On an axis of odd length the index is the
    exact middle (as many cells before as after it); on an axis of even
    length it has one cell more before it than after it, i.e. it is the
    later of the two central indices: even grids bias toward the
    bottom-right of center. *)
Theorem center_anchor_floor_midpoint (rows cols : Z) :
  1 <= rows -> 1 <= cols ->
  let '(r, c) := get_anchor_grid_position CENTER rows cols in
  r = rows / 2 /\ c = cols / 2 /\
  (Z.even rows = true -> rows - 1 - r = r - 1) /\
  (Z.even rows = false -> rows - 1 - r = r) /\
  (Z.even cols = true -> cols - 1 - c = c - 1) /\
  (Z.even cols = false -> cols - 1 - c = c).
Proof.
  intros Hr Hc. simpl.
  pose proof (Z.div_mod rows 2 ltac:(lia)) as Dr.
  pose proof (Z.div_mod cols 2 ltac:(lia)) as Dc.
  rewrite Zmod_even in Dr, Dc.
  repeat split; intros E; rewrite E in *; lia.
Qed.

Lemma center_anchor_floor_midpoint_witness :
  (1 <= 4 /\ 1 <= 3) /\
  (let '(r, c) := get_anchor_grid_position CENTER 4 3 in
   r = 4 / 2 /\ c = 3 / 2 /\
   (Z.even 4 = true -> 4 - 1 - r = r - 1) /\
   (Z.even 4 = false -> 4 - 1 - r = r) /\
   (Z.even 3 = true -> 3 - 1 - c = c - 1) /\
   (Z.even 3 = false -> 3 - 1 - c = c)).
Proof.
  split; [lia|].
  apply (center_anchor_floor_midpoint 4 3); lia.
Defined.

(** ** The anchor cell *)

(** Case on the integer comparisons of the goal, then close by [lia]. *)
Ltac zbool :=
  repeat match goal with
         | |- context [?a <=? ?b] => destruct (Z.leb_spec a b)
         | |- context [?a <? ?b] => destruct (Z.ltb_spec a b)
         end; simpl; lia.

Lemma filter_row_cells (row r c : Z) (cols : list Z) :
  filter (is_cell r c) (map (fun col => (row, col)) cols) =
  if row =? r then map (fun col => (row, col)) (filter (fun col => col =? c) cols)
  else [].
Proof.
  induction cols as [|col cols IH]; simpl.
  - destruct (row =? r); reflexivity.
  - unfold is_cell at 1; simpl. rewrite IH.
    destruct (row =? r); simpl; [destruct (col =? c)|]; reflexivity.
Qed.

Lemma count_zseq (k : Z) (s len : nat) :
  List.length (filter (fun x => x =? k) (map Z.of_nat (seq s len))) =
  (if (Z.of_nat s <=? k) && (k <? Z.of_nat s + Z.of_nat len) then 1%nat else 0%nat).
Proof.
  revert s. induction len as [|len IH]; intros s.
  - cbn [seq map filter List.length]. zbool.
  - cbn [seq map filter].
    destruct (Z.eqb_spec (Z.of_nat s) k); cbn [List.length]; rewrite IH; zbool.
Qed.

Lemma count_grid_rows (r c cols : Z) (s len : nat) :
  0 <= c < cols ->
  List.length (filter (is_cell r c)
    (flat_map (fun row => map (fun col => (row, col)) (zrange cols))
       (map Z.of_nat (seq s len)))) =
  List.length (filter (fun x => x =? r) (map Z.of_nat (seq s len))).
Proof.
  intros Hc. revert s. induction len as [|len IH]; intros s; simpl; [reflexivity|].
  rewrite filter_app, length_app, filter_row_cells, IH.
  destruct (Z.of_nat s =? r); simpl; [|reflexivity].
  rewrite length_map. unfold zrange. rewrite count_zseq.
  replace ((Z.of_nat 0 <=? c) && (c <? Z.of_nat 0 + Z.of_nat (Z.to_nat cols)))
    with true; [reflexivity|].
  symmetry. apply andb_true_iff. split; [apply Z.leb_le | apply Z.ltb_lt]; lia.
Qed.

(** C10: for rows, cols >= 1 and every anchor position, the anchor cell
    lies inside the grid, and exactly one of the cells visited by the
    nested loops of [compose_collage] passes its anchor test. *)
Theorem anchor_cell_in_grid (pos : AnchorPosition) (rows cols : Z) :
  1 <= rows -> 1 <= cols ->
  let '(r, c) := get_anchor_grid_position pos rows cols in
  0 <= r < rows /\ 0 <= c < cols /\
  List.length (filter (is_cell r c) (grid_cells rows cols)) = 1%nat.
Proof.
  intros Hr Hc.
  assert (Hin : let '(r, c) := get_anchor_grid_position pos rows cols in
                0 <= r < rows /\ 0 <= c < cols).
  { pose proof (Z.div_pos rows 2 ltac:(lia) ltac:(lia)).
    pose proof (Z.div_pos cols 2 ltac:(lia) ltac:(lia)).
    pose proof (Z.div_lt rows 2 ltac:(lia) ltac:(lia)).
    pose proof (Z.div_lt cols 2 ltac:(lia) ltac:(lia)).
    destruct pos; simpl; lia. }
  destruct (get_anchor_grid_position pos rows cols) as [r c].
  destruct Hin as [Hr' Hc']. repeat split; try lia.
  unfold grid_cells. unfold zrange at 2.
  rewrite count_grid_rows by lia. rewrite count_zseq.
  replace ((Z.of_nat 0 <=? r) && (r <? Z.of_nat 0 + Z.of_nat (Z.to_nat rows)))
    with true; [reflexivity|].
  symmetry. apply andb_true_iff. split; [apply Z.leb_le | apply Z.ltb_lt]; lia.
Qed.

Lemma anchor_cell_in_grid_witness :
  (1 <= 3 /\ 1 <= 2) /\
  (let '(r, c) := get_anchor_grid_position CENTER_RIGHT 3 2 in
   0 <= r < 3 /\ 0 <= c < 2 /\
   List.length (filter (is_cell r c) (grid_cells 3 2)) = 1%nat).
Proof.
  split; [lia|].
  apply (anchor_cell_in_grid CENTER_RIGHT 3 2); lia.
Defined.

(** ** Layout suggestion *)

(** C3 (as stated, refuted): one thought gets the 2x2 grid (three
    panels) although the 1x3 row holds two, and two thoughts get the 1x3
    row: the capacity drops from 3 to 2 as the count grows from 1 to 2. *)
Lemma suggest_layout_counterexample :
  suggest_layout 1 = GRID_2X2 /\ get_required_panel_count GRID_2X2 = 3 /\
  get_required_panel_count ROW_1X3 = 2 /\ 1 <= 2 /\
  suggest_layout 2 = ROW_1X3 /\
  get_required_panel_count (suggest_layout 2) <
    get_required_panel_count (suggest_layout 1).
Proof. vm_compute. repeat split; try reflexivity; discriminate. Qed.

(** C3 (amended): for 2 <= n <= 8 thoughts [suggest_layout] returns a
    layout of smallest panel capacity among those holding n panels; for
    n > 8 it returns the 3x3 grid (capacity 8); for n <= 1 it returns the
    2x2 grid (capacity 3); and from n = 2 on the capacity grows with n. *)
Theorem suggest_layout_staircase :
  (forall n, 2 <= n <= 8 ->
     n <= get_required_panel_count (suggest_layout n) /\
     forall l, n <= get_required_panel_count l ->
       get_required_panel_count (suggest_layout n) <= get_required_panel_count l) /\
  (forall n, 8 < n -> suggest_layout n = GRID_3X3) /\
  (forall n, n <= 1 -> suggest_layout n = GRID_2X2) /\
  (forall n m, 2 <= n <= m ->
     get_required_panel_count (suggest_layout n) <=
     get_required_panel_count (suggest_layout m)).
Proof.
  assert (Hcap : forall n, 2 <= n ->
    get_required_panel_count (suggest_layout n) =
    if n <=? 2 then 2 else if n <=? 3 then 3 else if n <=? 5 then 5 else 8).
  { intros n Hn. unfold suggest_layout.
    replace (n <=? 1) with false by (symmetry; apply Z.leb_gt; lia).
    destruct (n <=? 2); [reflexivity|].
    destruct (n <=? 3); [reflexivity|].
    destruct (n <=? 5); [reflexivity|].
    destruct (n <=? 8); reflexivity. }
  split; [|split; [|split]].
  - intros n Hn. rewrite Hcap by lia. split; [zbool|].
    intros l Hl.
    destruct l; unfold get_required_panel_count, get_panel_count in *;
      simpl in *; zbool.
  - intros n Hn. unfold suggest_layout.
    replace (n <=? 1) with false by (symmetry; apply Z.leb_gt; lia).
    replace (n <=? 2) with false by (symmetry; apply Z.leb_gt; lia).
    replace (n <=? 3) with false by (symmetry; apply Z.leb_gt; lia).
    replace (n <=? 5) with false by (symmetry; apply Z.leb_gt; lia).
    replace (n <=? 8) with false by (symmetry; apply Z.leb_gt; lia).
    reflexivity.
  - intros n Hn. unfold suggest_layout.
    replace (n <=? 1) with true by (symmetry; apply Z.leb_le; lia).
    reflexivity.
  - intros n m Hnm. rewrite !Hcap by lia. zbool.
Qed.

(** ** Caption overlay *)

(** C7: [add_caption_to_image] returns its input image itself when the
    caption is empty or starts with '['. *)
Theorem add_caption_to_image_placeholder
    (text_bbox : Z -> string -> Z * Z * Z * Z) (im : image) (caption : string)
    (font_size : Z) (text_color : rgb) (bg_opacity : Z) :
  (caption = EmptyString \/ exists rest, caption = String "[" rest) ->
  add_caption_to_image text_bbox im caption font_size text_color bg_opacity = im.
Proof.
  intros [-> | [rest ->]]; reflexivity.
Qed.

Lemma add_caption_to_image_placeholder_witness :
  ("[Tal]"%string = EmptyString \/ exists rest, "[Tal]"%string = String "[" rest) /\
  add_caption_to_image (fun _ _ => (0, 0, 500, 14)) (Source 0 50 50) "[Tal]"
    14 (255, 255, 255) 180 = Source 0 50 50.
Proof.
  split; [right; eexists; reflexivity|].
  apply (add_caption_to_image_placeholder (fun _ _ => (0, 0, 500, 14))
           (Source 0 50 50) "[Tal]" 14 (255, 255, 255) 180).
  right. eexists. reflexivity.
Defined.

(** ** Caption truncation *)

Lemma substring_0_length (m : nat) (s : string) :
  String.length (substring 0 m s) = Nat.min m (String.length s).
Proof.
  revert m. induction s as [|a s IH]; intros [|m]; simpl; auto.
Qed.

Lemma string_append_length (s1 s2 : string) :
  String.length (String.append s1 s2) = (String.length s1 + String.length s2)%nat.
Proof. induction s1 as [|a s1 IH]; simpl; auto. Qed.

Lemma shorten_length (caption : string) :
  (4 <= String.length caption)%nat ->
  String.length (shorten caption) = (String.length caption - 1)%nat.
Proof.
  intros H. unfold shorten. rewrite string_append_length, substring_0_length.
  simpl. lia.
Qed.

Lemma truncate_loop_runs (text_bbox : Z -> string -> Z * Z * Z * Z)
    (font_size max_width : Z) (fuel : nat) (st : string * Z) :
  (String.length (fst st) <= fuel + 10)%nat ->
  loop_runs text_bbox font_size max_width st
    (truncate_loop text_bbox fuel font_size max_width st) /\
  (String.length (fst (truncate_loop text_bbox fuel font_size max_width st))
     <= String.length (fst st))%nat.
Proof.
  revert st. induction fuel as [|fuel IH]; intros st Hlen; simpl.
  - split; [|lia]. apply loop_exit. unfold keep_truncating.
    apply andb_false_iff. right. apply Nat.ltb_ge. lia.
  - destruct (keep_truncating max_width st) eqn:Hk.
    + pose proof Hk as Hk'. unfold keep_truncating in Hk'.
      apply andb_true_iff in Hk' as [_ Hl]. apply Nat.ltb_lt in Hl.
      assert (Hs : String.length (fst (truncate_step text_bbox font_size st))
                   = (String.length (fst st) - 1)%nat)
        by (simpl; apply shorten_length; lia).
      destruct (IH (truncate_step text_bbox font_size st)) as [Hr Hle]; [lia|].
      split; [apply loop_iter; assumption | lia].
    + split; [apply loop_exit; assumption | lia].
Qed.

(** C8: for every font metrics, maximal width, caption and initial text
    width, the truncation loop of [add_caption_to_image] (run with the
    caption's length as step budget) exits: the [while] loop reaches its
    exit from the initial state, and the caption it leaves is no longer
    than the original one. *)
Theorem caption_truncation_terminates
    (text_bbox : Z -> string -> Z * Z * Z * Z) (font_size max_width : Z)
    (caption : string) (text_width : Z) :
  let st' := truncate_loop text_bbox (String.length caption) font_size max_width
               (caption, text_width) in
  loop_runs text_bbox font_size max_width (caption, text_width) st' /\
  keep_truncating max_width st' = false /\
  (String.length (fst st') <= String.length caption)%nat.
Proof.
  intros st'.
  destruct (truncate_loop_runs text_bbox font_size max_width
              (String.length caption) (caption, text_width)) as [Hr Hle];
    [simpl; lia|].
  split; [exact Hr|]. split; [|exact Hle].
  clear Hle. subst st'. remember (caption, text_width) as st0 eqn:E. clear E.
  induction Hr; assumption.
Qed.

(** ** The collage assembler *)

Lemma add_caption_to_image_content (text_bbox : Z -> string -> Z * Z * Z * Z)
    (im : image) (caption : string) (font_size : Z) (text_color : rgb)
    (bg_opacity : Z) :
  content (add_caption_to_image text_bbox im caption font_size text_color
             bg_opacity) = content im.
Proof. unfold add_caption_to_image. destruct (skip_caption caption); reflexivity. Qed.

(** The caption and border stage of a cell keeps the cell's content. *)
Lemma new_image_ok (w h : Z) (color : rgb) :
  0 <= w -> 0 <= h -> new_image w h color = Some (Blank w h color).
Proof.
  intros Hw Hh. unfold new_image.
  replace ((w <? 0) || (h <? 0)) with false; [reflexivity|].
  symmetry. apply orb_false_iff. split; apply Z.ltb_ge; lia.
Qed.

Section Cells.

Variables (text_bbox : Z -> string -> Z * Z * Z * Z) (anchor_image : image)
  (panels : list image) (thoughts : list string) (config : LayoutConfig)
  (cell_size : Z * Z).

Hypothesis target_width_pos : 0 < fst cell_size - 2 * border_width config.
Hypothesis target_height_pos : 0 < snd cell_size - 2 * border_width config.

Let cell_x (row col : Z) : Z :=
  fst (get_cell_position row col cell_size (padding config)).
Let cell_y (row col : Z) : Z :=
  snd (get_cell_position row col cell_size (padding config)).

Lemma compose_cell_anchor (ar ac : Z) (panel_index : nat) (collage : image) :
  raster_ok anchor_image ->
  exists im,
    compose_cell text_bbox anchor_image panels thoughts config cell_size (ar, ac)
      (panel_index, collage) (ar, ac) =
      Some (panel_index, Pasted collage im (cell_x ar ac) (cell_y ar ac)) /\
    content im = Some anchor_image /\ has_caption im = false.
Proof.
  intros Hraster.
  assert (Hwh : 0 < width anchor_image /\ 0 < height anchor_image)
    by (destruct anchor_image; simpl in Hraster; try contradiction; exact Hraster).
  destruct Hwh as [Hw Hh].
  destruct (resize_image_to_cell_ok anchor_image cell_size (border_width config)
              Hw Hh target_width_pos target_height_pos) as (ci & Hci & _ & Hc & Hk).
  unfold compose_cell. rewrite !Z.eqb_refl. simpl andb. rewrite Hci.
  assert (Hcap : content ci = Some anchor_image /\ has_caption ci = false).
  { rewrite Hc, Hk. destruct anchor_image; simpl in Hraster; try contradiction.
    auto. }
  destruct (show_captions config); simpl.
  - (* the anchor label "[Tal]" is a bracketed placeholder *)
    unfold add_caption_to_image; simpl.
    destruct (0 <? border_width config) eqn:Hb.
    + apply Z.ltb_lt in Hb. rewrite new_image_ok by lia.
      eexists. split; [reflexivity|]. simpl. destruct Hcap as [-> ->]. auto.
    + eexists. split; [reflexivity|]. exact Hcap.
  - destruct (0 <? border_width config) eqn:Hb.
    + apply Z.ltb_lt in Hb. rewrite new_image_ok by lia.
      eexists. split; [reflexivity|]. simpl. destruct Hcap as [-> ->]. auto.
    + eexists. split; [reflexivity|]. exact Hcap.
Qed.

Lemma compose_cell_panel (row col ar ac : Z) (panel_index : nat)
    (collage panel : image) :
  (row =? ar) && (col =? ac) = false ->
  nth_error panels panel_index = Some panel ->
  raster_ok panel ->
  exists im,
    compose_cell text_bbox anchor_image panels thoughts config cell_size (ar, ac)
      (panel_index, collage) (row, col) =
      Some (S panel_index, Pasted collage im (cell_x row col) (cell_y row col)) /\
    content im = Some panel.
Proof.
  intros Hne Hnth Hraster.
  assert (Hwh : 0 < width panel /\ 0 < height panel)
    by (destruct panel; simpl in Hraster; try contradiction; exact Hraster).
  destruct Hwh as [Hw Hh].
  destruct (resize_image_to_cell_ok panel cell_size (border_width config)
              Hw Hh target_width_pos target_height_pos) as (ci & Hci & _ & Hc & _).
  assert (Hsrc : content panel = Some panel)
    by (destruct panel; simpl in Hraster; try contradiction; reflexivity).
  unfold compose_cell. rewrite Hne, Hnth, Hci.
  set (caption := match nth_error thoughts panel_index with
                  | Some t => t | None => ""%string end).
  set (ci' := if show_captions config && negb (String.eqb caption ""%string)
              then add_caption_to_image text_bbox ci caption
                     (caption_font_size config) (caption_color config)
                     (caption_bg_opacity config)
              else ci).
  assert (Hci' : content ci' = Some panel).
  { subst ci'. destruct (show_captions config && negb (String.eqb caption ""%string));
      [rewrite add_caption_to_image_content|]; rewrite Hc; exact Hsrc. }
  change (if show_captions config && negb (String.eqb caption ""%string)
          then add_caption_to_image text_bbox ci caption
                 (caption_font_size config) (caption_color config)
                 (caption_bg_opacity config)
          else ci) with ci'.
  destruct (0 <? border_width config) eqn:Hb.
  - apply Z.ltb_lt in Hb. rewrite new_image_ok by lia.
    eexists. split; [reflexivity|]. exact Hci'.
  - eexists. split; [reflexivity|]. exact Hci'.
Qed.

End Cells.

Lemma resize_image_to_cell_has_caption (im out : image) (cell_size : Z * Z)
    (bw : Z) :
  resize_image_to_cell im cell_size bw = Some out ->
  has_caption out = has_caption im.
Proof.
  unfold resize_image_to_cell.
  destruct (scaled_size (width im) (height im) (fst cell_size - 2 * bw)
              (snd cell_size - 2 * bw)) as [[nw nh]|]; simpl; [|discriminate].
  unfold pil_resize, pil_crop.
  destruct ((fst (size im) =? nw) && (snd (size im) =? nh)).
  - destruct (_ || _); [discriminate|]. intros H; inversion H; reflexivity.
  - destruct ((nw <? 1) || (nh <? 1)); [discriminate|].
    destruct (_ || _); [discriminate|]. intros H; inversion H; reflexivity.
Qed.

(** Every step of the assembler loop pastes one cell image on the
    collage built so far. *)
Lemma compose_cell_pastes (text_bbox : Z -> string -> Z * Z * Z * Z)
    (anchor_image : image) (panels : list image) (thoughts : list string)
    (config : LayoutConfig) (cell_size anchor_rc : Z * Z) (st st' : nat * image)
    (rc : Z * Z) :
  compose_cell text_bbox anchor_image panels thoughts config cell_size anchor_rc
    st rc = Some st' ->
  exists im,
    snd st' = Pasted (snd st) im
                (fst (get_cell_position (fst rc) (snd rc) cell_size (padding config)))
                (snd (get_cell_position (fst rc) (snd rc) cell_size (padding config))).
Proof.
  destruct st as [pi cv], rc as [row col], anchor_rc as [ar ac].
  unfold compose_cell. cbn beta iota.
  match goal with
  | |- match ?chosen with Some _ => _ | None => _ end = _ -> _ =>
      destruct chosen as [[[ci cap] pi']|]; [|discriminate]
  end.
  destruct (0 <? border_width config).
  - destruct (new_image _ _ _); [|discriminate].
    intros H; inversion H; subst; simpl; eauto.
  - intros H; inversion H; subst; simpl; eauto.
Qed.

Lemma compose_cell_anchor_uncaptioned (text_bbox : Z -> string -> Z * Z * Z * Z)
    (anchor_image : image) (panels : list image) (thoughts : list string)
    (config : LayoutConfig) (cell_size : Z * Z) (ar ac : Z) (st st' : nat * image) :
  has_caption anchor_image = false ->
  compose_cell text_bbox anchor_image panels thoughts config cell_size (ar, ac)
    st (ar, ac) = Some st' ->
  exists im x y, snd st' = Pasted (snd st) im x y /\ has_caption im = false.
Proof.
  intros Ha. destruct st as [pi cv].
  unfold compose_cell. cbn beta iota. rewrite !Z.eqb_refl. simpl andb.
  destruct (resize_image_to_cell anchor_image cell_size (border_width config))
    as [ci|] eqn:Hr; [|discriminate].
  apply resize_image_to_cell_has_caption in Hr. rewrite Ha in Hr.
  destruct (show_captions config); simpl;
    [unfold add_caption_to_image; simpl|];
    (destruct (0 <? border_width config);
     [unfold new_image; destruct (_ || _); [discriminate|]|]);
    intros H; inversion H; subst; simpl;
    (do 3 eexists; split; [reflexivity | simpl; try rewrite Hr; reflexivity]).
Qed.

Lemma run_cells_pastes (text_bbox : Z -> string -> Z * Z * Z * Z)
    (anchor_image : image) (panels : list image) (thoughts : list string)
    (config : LayoutConfig) (cell_size anchor_rc : Z * Z) (cells : list (Z * Z))
    (st st' : nat * image) :
  run_cells text_bbox anchor_image panels thoughts config cell_size anchor_rc
    cells st = Some st' ->
  exists L,
    pastes (snd st') = pastes (snd st) ++ L /\
    Forall2 (fun rc p =>
      exists st0 st1,
        compose_cell text_bbox anchor_image panels thoughts config cell_size
          anchor_rc st0 rc = Some st1 /\
        snd st1 = Pasted (snd st0) (fst (fst p)) (snd (fst p)) (snd p))
      cells L.
Proof.
  revert st. induction cells as [|rc cells IH]; intros st; simpl.
  - intros H; inversion H; subst. exists []. rewrite app_nil_r. auto.
  - destruct (compose_cell text_bbox anchor_image panels thoughts config
                cell_size anchor_rc st rc) as [st1|] eqn:Hc; [|discriminate].
    intros Hrun. destruct (IH st1 Hrun) as (L & HL & HF).
    destruct (compose_cell_pastes _ _ _ _ _ _ _ _ _ _ Hc) as [im Him].
    exists ((im, fst (get_cell_position (fst rc) (snd rc) cell_size (padding config)),
             snd (get_cell_position (fst rc) (snd rc) cell_size (padding config)))
            :: L).
    split.
    + rewrite HL, Him. simpl. rewrite <- app_assoc. reflexivity.
    + constructor; [|exact HF]. exists st, st1. split; [exact Hc|]. exact Him.
Qed.

Lemma Forall2_in_combine {A B : Type} (R : A -> B -> Prop) (l1 : list A)
    (l2 : list B) (a : A) (b : B) :
  Forall2 R l1 l2 -> In (a, b) (combine l1 l2) -> R a b.
Proof.
  intros HF. induction HF as [|x y l1 l2 Hxy HF IH]; simpl; [contradiction|].
  intros [E | Hin]; [inversion E; subst; exact Hxy | exact (IH Hin)].
Qed.

(** C4 (as stated, refuted): with captions enabled, a 2x2 collage whose
    panels have captions gets a caption band on the first panel cell, but
    none on the anchor cell: its caption is the placeholder "[Tal]". *)
Lemma anchor_label_counterexample :
  let config := {| layout_type := GRID_2X2; anchor_position := TOP_LEFT;
                   padding := 8; border_width := 4; border_color := (255, 255, 255);
                   background_color := (30, 30, 30); output_size := (1080, 1080);
                   show_captions := true; caption_font_size := 14;
                   caption_color := (255, 255, 255); caption_bg_opacity := 180 |} in
  show_captions config = true /\
  match compose_collage (fun _ caption => (0, 0, 7 * Z.of_nat (String.length caption), 14))
          (Source 0 600 600) [Source 1 400 300; Source 2 300 400; Source 3 500 500]
          ["one"; "two"; "three"]%string config with
  | Some canvas =>
      match pastes canvas with
      | (anchor_cell, _, _) :: (panel_cell, _, _) :: _ =>
          has_caption anchor_cell = false /\ has_caption panel_cell = true
      | _ => False
      end
  | None => False
  end.
Proof. vm_compute. split; [reflexivity | split; reflexivity]. Qed.

(** C4 (amended): the anchor cell never gets a caption overlay.  With
    captions disabled its caption is empty, and with [show_captions] it is
    the bracketed placeholder "[Tal]", which [add_caption_to_image] leaves
    undrawn; so in every collage [compose_collage] builds from a
    caller-supplied anchor raster, the image pasted at the anchor cell has
    no caption band. *)
Theorem compose_collage_anchor_uncaptioned (text_bbox : Z -> string -> Z * Z * Z * Z)
    (anchor_image : image) (panels : list image) (thoughts : list string)
    (config : LayoutConfig) (canvas : image) :
  raster_ok anchor_image ->
  compose_collage text_bbox anchor_image panels thoughts config = Some canvas ->
  let '(rows, cols) := get_layout_grid (layout_type config) in
  let '(ar, ac) := get_anchor_grid_position (anchor_position config) rows cols in
  forall im x y,
    In ((ar, ac), (im, x, y)) (combine (grid_cells rows cols) (pastes canvas)) ->
    has_caption im = false.
Proof.
  intros Hraster. unfold compose_collage.
  destruct (get_layout_grid (layout_type config)) as [rows cols].
  destruct (get_anchor_grid_position (anchor_position config) rows cols) as [ar ac].
  unfold new_image.
  destruct ((fst (output_size config) <? 0) || (snd (output_size config) <? 0));
    [discriminate|].
  match goal with
  | |- match run_cells ?tb ?a ?ps ?ts ?c ?cs ?arc ?cells ?st0 with _ => _ end = _ -> _ =>
      destruct (run_cells tb a ps ts c cs arc cells st0) as [st|] eqn:Hrun;
        [|discriminate]
  end.
  intros H. inversion H; subst canvas. clear H.
  destruct (run_cells_pastes _ _ _ _ _ _ _ _ _ _ Hrun) as (L & HL & HF).
  rewrite HL. simpl pastes. simpl app.
  intros im x y Hin.
  destruct (Forall2_in_combine _ _ _ _ _ HF Hin) as (st0 & st1 & Hc & Hs).
  assert (Ha : has_caption anchor_image = false)
    by (destruct anchor_image; simpl in Hraster; try contradiction; reflexivity).
  destruct (compose_cell_anchor_uncaptioned _ _ _ _ _ _ _ _ _ _ Ha Hc)
    as (im' & x' & y' & Hs' & Hk).
  rewrite Hs in Hs'. inversion Hs'. subst. exact Hk.
Qed.

Lemma compose_collage_anchor_uncaptioned_witness :
  raster_ok (Source 0 600 600) /\
  compose_collage (fun _ _ => (0, 0, 40, 14)) (Source 0 600 600)
    [Source 1 400 300] ["one"]%string
    {| layout_type := GRID_2X2; anchor_position := CENTER;
       padding := 8; border_width := 4; border_color := (255, 255, 255);
       background_color := (30, 30, 30); output_size := (1080, 1080);
       show_captions := true; caption_font_size := 14;
       caption_color := (255, 255, 255); caption_bg_opacity := 180 |} =
    Some (Pasted (Pasted (Pasted (Pasted (Blank 1080 1080 (30, 30, 30))
      (Pasted (Blank 528 528 (255, 255, 255))
         (Captioned (Cropped (Resized (Source 1 400 300) 693 520) 86 0 606 520)
            "one" 240 495 489 14 (255, 255, 255) 180) 4 4) 8 8)
      (Pasted (Blank 528 528 (255, 255, 255)) (Blank 520 520 (30, 30, 30)) 4 4) 544 8)
      (Pasted (Blank 528 528 (255, 255, 255)) (Blank 520 520 (30, 30, 30)) 4 4) 8 544)
      (Pasted (Blank 528 528 (255, 255, 255))
         (Cropped (Resized (Source 0 600 600) 520 520) 0 0 520 520) 4 4) 544 544) /\
  forall im x y,
    In ((1, 1), (im, x, y))
      (combine (grid_cells 2 2)
         (pastes (Pasted (Pasted (Pasted (Pasted (Blank 1080 1080 (30, 30, 30))
      (Pasted (Blank 528 528 (255, 255, 255))
         (Captioned (Cropped (Resized (Source 1 400 300) 693 520) 86 0 606 520)
            "one" 240 495 489 14 (255, 255, 255) 180) 4 4) 8 8)
      (Pasted (Blank 528 528 (255, 255, 255)) (Blank 520 520 (30, 30, 30)) 4 4) 544 8)
      (Pasted (Blank 528 528 (255, 255, 255)) (Blank 520 520 (30, 30, 30)) 4 4) 8 544)
      (Pasted (Blank 528 528 (255, 255, 255))
         (Cropped (Resized (Source 0 600 600) 520 520) 0 0 520 520) 4 4) 544 544))) ->
    has_caption im = false.
Proof.
  assert (Hr : raster_ok (Source 0 600 600)) by (simpl; lia).
  assert (Hc : compose_collage (fun _ _ => (0, 0, 40, 14)) (Source 0 600 600)
    [Source 1 400 300] ["one"]%string
    {| layout_type := GRID_2X2; anchor_position := CENTER;
       padding := 8; border_width := 4; border_color := (255, 255, 255);
       background_color := (30, 30, 30); output_size := (1080, 1080);
       show_captions := true; caption_font_size := 14;
       caption_color := (255, 255, 255); caption_bg_opacity := 180 |} =
    Some (Pasted (Pasted (Pasted (Pasted (Blank 1080 1080 (30, 30, 30))
      (Pasted (Blank 528 528 (255, 255, 255))
         (Captioned (Cropped (Resized (Source 1 400 300) 693 520) 86 0 606 520)
            "one" 240 495 489 14 (255, 255, 255) 180) 4 4) 8 8)
      (Pasted (Blank 528 528 (255, 255, 255)) (Blank 520 520 (30, 30, 30)) 4 4) 544 8)
      (Pasted (Blank 528 528 (255, 255, 255)) (Blank 520 520 (30, 30, 30)) 4 4) 8 544)
      (Pasted (Blank 528 528 (255, 255, 255))
         (Cropped (Resized (Source 0 600 600) 520 520) 0 0 520 520) 4 4) 544 544))
    by (vm_compute; reflexivity).
  split; [exact Hr|]. split; [exact Hc|].
  exact (compose_collage_anchor_uncaptioned _ _ _ _ _ _ Hr Hc).
Defined.

(** C2: for a 2x2 layout with the anchor at the top left and exactly three
    panels (caller rasters of positive size, on a canvas whose cells leave
    a positive target size), [compose_collage] pastes the anchor at cell
    (0,0) and panels 0, 1, 2 at cells (0,1), (1,0), (1,1), in that order. *)
Theorem compose_collage_2x2_row_major (text_bbox : Z -> string -> Z * Z * Z * Z)
    (anchor_image p0 p1 p2 : image) (thoughts : list string)
    (config : LayoutConfig) :
  layout_type config = GRID_2X2 ->
  anchor_position config = TOP_LEFT ->
  0 <= fst (output_size config) -> 0 <= snd (output_size config) ->
  0 < fst (calculate_cell_size (output_size config) 2 2 (padding config))
      - 2 * border_width config ->
  0 < snd (calculate_cell_size (output_size config) 2 2 (padding config))
      - 2 * border_width config ->
  raster_ok anchor_image -> raster_ok p0 -> raster_ok p1 -> raster_ok p2 ->
  let cell r c :=
    get_cell_position r c (calculate_cell_size (output_size config) 2 2
                             (padding config)) (padding config) in
  exists canvas,
    compose_collage text_bbox anchor_image [p0; p1; p2] thoughts config =
      Some canvas /\
    map (fun '(im, x, y) => (content im, (x, y))) (pastes canvas) =
      [(Some anchor_image, cell 0 0); (Some p0, cell 0 1);
       (Some p1, cell 1 0); (Some p2, cell 1 1)].
Proof.
  intros Hl Ha Hw Hh Htw Hth Hra Hr0 Hr1 Hr2 cell.
  unfold compose_collage. rewrite Hl, Ha. cbn [get_layout_grid get_anchor_grid_position].
  rewrite new_image_ok by assumption.
  replace (grid_cells 2 2) with [(0, 0); (0, 1); (1, 0); (1, 1)] by reflexivity.
  set (cs := calculate_cell_size (output_size config) 2 2 (padding config)) in *.
  cbn [run_cells].
  destruct (compose_cell_anchor text_bbox anchor_image [p0; p1; p2] thoughts config
              cs Htw Hth 0 0 0%nat (Blank (fst (output_size config))
                 (snd (output_size config)) (background_color config)) Hra)
    as (a' & -> & Ha' & _).
  match goal with
  | |- context [compose_cell _ _ _ _ _ _ _ (?pi, ?cv) (0, 1)] =>
      destruct (compose_cell_panel text_bbox anchor_image [p0; p1; p2] thoughts
                  config cs Htw Hth 0 1 0 0 pi cv p0 eq_refl eq_refl Hr0)
        as (i0 & -> & Hi0)
  end.
  match goal with
  | |- context [compose_cell _ _ _ _ _ _ _ (?pi, ?cv) (1, 0)] =>
      destruct (compose_cell_panel text_bbox anchor_image [p0; p1; p2] thoughts
                  config cs Htw Hth 1 0 0 0 pi cv p1 eq_refl eq_refl Hr1)
        as (i1 & -> & Hi1)
  end.
  match goal with
  | |- context [compose_cell _ _ _ _ _ _ _ (?pi, ?cv) (1, 1)] =>
      destruct (compose_cell_panel text_bbox anchor_image [p0; p1; p2] thoughts
                  config cs Htw Hth 1 1 0 0 pi cv p2 eq_refl eq_refl Hr2)
        as (i2 & -> & Hi2)
  end.
  eexists. split; [reflexivity|].
  simpl. rewrite Ha', Hi0, Hi1, Hi2. reflexivity.
Qed.

Lemma compose_collage_2x2_row_major_witness :
  let config := {| layout_type := GRID_2X2; anchor_position := TOP_LEFT;
                   padding := 8; border_width := 0; border_color := (255, 255, 255);
                   background_color := (30, 30, 30); output_size := (1080, 1080);
                   show_captions := false; caption_font_size := 14;
                   caption_color := (255, 255, 255); caption_bg_opacity := 180 |} in
  (layout_type config = GRID_2X2 /\ anchor_position config = TOP_LEFT /\
   0 <= fst (output_size config) /\ 0 <= snd (output_size config) /\
   0 < fst (calculate_cell_size (output_size config) 2 2 (padding config))
       - 2 * border_width config /\
   0 < snd (calculate_cell_size (output_size config) 2 2 (padding config))
       - 2 * border_width config /\
   raster_ok (Source 0 600 600) /\ raster_ok (Source 1 400 300) /\
   raster_ok (Source 2 300 400) /\ raster_ok (Source 3 500 500)) /\
  let cell r c :=
    get_cell_position r c (calculate_cell_size (output_size config) 2 2
                             (padding config)) (padding config) in
  exists canvas,
    compose_collage (fun _ _ => (0, 0, 40, 14)) (Source 0 600 600)
      [Source 1 400 300; Source 2 300 400; Source 3 500 500] ["a"; "b"]%string
      config = Some canvas /\
    map (fun '(im, x, y) => (content im, (x, y))) (pastes canvas) =
      [(Some (Source 0 600 600), cell 0 0); (Some (Source 1 400 300), cell 0 1);
       (Some (Source 2 300 400), cell 1 0); (Some (Source 3 500 500), cell 1 1)].
Proof.
  intros config. split.
  - simpl. repeat split; try reflexivity; lia.
  - apply (compose_collage_2x2_row_major (fun _ _ => (0, 0, 40, 14))
             (Source 0 600 600) (Source 1 400 300) (Source 2 300 400)
             (Source 3 500 500) ["a"; "b"]%string config);
      simpl; try reflexivity; repeat split; lia.
Defined.

(** ** More on the collage assembler *)

Lemma skipn_nth_error {A : Type} (l : list A) (n : nat) (x : A) :
  nth_error l n = Some x -> skipn n l = x :: skipn (S n) l.
Proof.
  revert n. induction l as [|a l IH]; intros [|n]; simpl; try discriminate.
  - intros H; inversion H; reflexivity.
  - apply IH.
Qed.

Lemma raster_ok_content (im : image) :
  raster_ok im -> content im = Some im /\ has_caption im = false.
Proof. destruct im; simpl; try contradiction; auto. Qed.

Section Layout.

Variables (text_bbox : Z -> string -> Z * Z * Z * Z) (anchor_image : image)
  (panels : list image) (thoughts : list string) (config : LayoutConfig)
  (cell_size : Z * Z).

Hypothesis target_width_pos : 0 < fst cell_size - 2 * border_width config.
Hypothesis target_height_pos : 0 < snd cell_size - 2 * border_width config.
Hypothesis anchor_ok : raster_ok anchor_image.
Hypothesis panels_ok : Forall raster_ok panels.

Lemma compose_cell_blank (row col ar ac : Z) (panel_index : nat) (collage : image) :
  (row =? ar) && (col =? ac) = false ->
  nth_error panels panel_index = None ->
  exists im,
    compose_cell text_bbox anchor_image panels thoughts config cell_size (ar, ac)
      (panel_index, collage) (row, col) =
      Some (panel_index,
            Pasted collage im
              (fst (get_cell_position row col cell_size (padding config)))
              (snd (get_cell_position row col cell_size (padding config)))) /\
    content im = None.
Proof.
  intros Hne Hnth. unfold compose_cell. rewrite Hne, Hnth.
  rewrite new_image_ok by lia.
  destruct (show_captions config); simpl;
    (destruct (0 <? border_width config) eqn:Hb;
     [apply Z.ltb_lt in Hb; rewrite new_image_ok by lia|]);
    eexists; (split; [reflexivity | reflexivity]).
Qed.

Lemma run_cells_layout (ar ac : Z) (cells : list (Z * Z)) (pi : nat)
    (collage : image) :
  exists pi' collage' L,
    run_cells text_bbox anchor_image panels thoughts config cell_size (ar, ac)
      cells (pi, collage) = Some (pi', collage') /\
    pastes collage' = pastes collage ++ L /\
    map (fun p => (snd (fst p), snd p)) L =
      map (fun rc => get_cell_position (fst rc) (snd rc) cell_size (padding config))
        cells /\
    (forall c, In ((ar, ac), c)
       (combine cells (map (fun p => content (fst (fst p))) L)) ->
       c = Some anchor_image) /\
    map snd (filter (fun e => negb (is_cell ar ac (fst e)))
               (combine cells (map (fun p => content (fst (fst p))) L))) =
      map Some (firstn (non_anchor_count ar ac cells) (skipn pi panels)) ++
      repeat None (non_anchor_count ar ac cells - List.length (skipn pi panels)).
Proof.
  revert pi collage.
  induction cells as [|[row col] cells IH]; intros pi collage.
  - exists pi, collage, []. simpl. rewrite app_nil_r.
    repeat split; auto. contradiction.
  - unfold non_anchor_count. simpl filter.
    destruct (is_cell ar ac (row, col)) eqn:Hcell; simpl negb;
      unfold is_cell in Hcell; simpl fst in Hcell; simpl snd in Hcell.
    + (* the anchor cell *)
      apply andb_true_iff in Hcell as [E1 E2].
      apply Z.eqb_eq in E1, E2. subst row col.
      destruct (compose_cell_anchor text_bbox anchor_image panels thoughts config
                  cell_size target_width_pos target_height_pos ar ac pi collage
                  anchor_ok) as (im & Hc & Hcont & _).
      destruct (IH pi (Pasted collage im
                   (fst (get_cell_position ar ac cell_size (padding config)))
                   (snd (get_cell_position ar ac cell_size (padding config)))))
        as (pi' & collage' & L & Hrun & HL & Hpos & Ha & Hf).
      exists pi', collage', ((im, fst (get_cell_position ar ac cell_size (padding config)),
                              snd (get_cell_position ar ac cell_size (padding config))) :: L).
      cbn [run_cells]. rewrite Hc. split; [exact Hrun|].
      split; [rewrite HL; simpl; rewrite <- app_assoc; reflexivity|].
      split; [cbn [map fst snd]; rewrite Hpos; f_equal; symmetry; apply surjective_pairing|].
      split.
      * intros c [E | Hin]; [inversion E; subst; exact Hcont | exact (Ha c Hin)].
      * simpl. unfold is_cell at 1. simpl. rewrite !Z.eqb_refl. simpl. exact Hf.
    + (* a panel cell *)
      destruct (nth_error panels pi) as [p|] eqn:Hnth.
      * assert (Hp : raster_ok p).
        { rewrite Forall_forall in panels_ok. apply panels_ok.
          eapply nth_error_In; exact Hnth. }
        destruct (compose_cell_panel text_bbox anchor_image panels thoughts config
                    cell_size target_width_pos target_height_pos row col ar ac pi
                    collage p Hcell Hnth Hp) as (im & Hc & Hcont).
        destruct (IH (S pi) (Pasted collage im
                     (fst (get_cell_position row col cell_size (padding config)))
                     (snd (get_cell_position row col cell_size (padding config)))))
          as (pi' & collage' & L & Hrun & HL & Hpos & Ha & Hf).
        exists pi', collage', ((im, fst (get_cell_position row col cell_size (padding config)),
                                snd (get_cell_position row col cell_size (padding config))) :: L).
        cbn [run_cells]. rewrite Hc. split; [exact Hrun|].
        split; [rewrite HL; simpl; rewrite <- app_assoc; reflexivity|].
        split; [cbn [map fst snd]; rewrite Hpos; f_equal; symmetry; apply surjective_pairing|].
        split.
        -- intros c [E | Hin]; [inversion E; subst; rewrite !Z.eqb_refl in Hcell;
                                discriminate | exact (Ha c Hin)].
        -- simpl. unfold is_cell at 1. simpl. rewrite Hcell. simpl.
           rewrite Hf, Hcont, (skipn_nth_error panels pi p Hnth). reflexivity.
      * destruct (compose_cell_blank row col ar ac pi collage Hcell Hnth)
          as (im & Hc & Hcont).
        destruct (IH pi (Pasted collage im
                     (fst (get_cell_position row col cell_size (padding config)))
                     (snd (get_cell_position row col cell_size (padding config)))))
          as (pi' & collage' & L & Hrun & HL & Hpos & Ha & Hf).
        exists pi', collage', ((im, fst (get_cell_position row col cell_size (padding config)),
                                snd (get_cell_position row col cell_size (padding config))) :: L).
        cbn [run_cells]. rewrite Hc. split; [exact Hrun|].
        split; [rewrite HL; simpl; rewrite <- app_assoc; reflexivity|].
        split; [cbn [map fst snd]; rewrite Hpos; f_equal; symmetry; apply surjective_pairing|].
        split.
        -- intros c [E | Hin]; [inversion E; subst; rewrite !Z.eqb_refl in Hcell;
                                discriminate | exact (Ha c Hin)].
        -- simpl. unfold is_cell at 1. simpl. rewrite Hcell. simpl.
           rewrite Hf, Hcont.
           apply nth_error_None in Hnth.
           rewrite (skipn_all2 panels Hnth). simpl. rewrite firstn_nil.
           unfold non_anchor_count. rewrite Nat.sub_0_r. reflexivity.
Qed.

End Layout.

Lemma non_anchor_count_grid (layout : LayoutType) (pos : AnchorPosition) :
  let rows := fst (get_layout_grid layout) in
  let cols := snd (get_layout_grid layout) in
  let arc := get_anchor_grid_position pos rows cols in
  non_anchor_count (fst arc) (snd arc) (grid_cells rows cols) =
    Z.to_nat (get_required_panel_count layout).
Proof. destruct layout, pos; vm_compute; reflexivity. Qed.

Lemma compose_collage_layout (text_bbox : Z -> string -> Z * Z * Z * Z)
    (anchor_image : image) (panels : list image) (thoughts : list string)
    (config : LayoutConfig) :
  let rows := fst (get_layout_grid (layout_type config)) in
  let cols := snd (get_layout_grid (layout_type config)) in
  let cs := calculate_cell_size (output_size config) rows cols (padding config) in
  let arc := get_anchor_grid_position (anchor_position config) rows cols in
  0 <= fst (output_size config) -> 0 <= snd (output_size config) ->
  0 < fst cs - 2 * border_width config -> 0 < snd cs - 2 * border_width config ->
  raster_ok anchor_image -> Forall raster_ok panels ->
  exists canvas,
    compose_collage text_bbox anchor_image panels thoughts config = Some canvas /\
    pasted_positions canvas =
      map (fun rc => get_cell_position (fst rc) (snd rc) cs (padding config))
        (grid_cells rows cols) /\
    (forall c, In (arc, c) (combine (grid_cells rows cols) (pasted_contents canvas)) ->
       c = Some anchor_image) /\
    map snd (filter (fun e => negb (is_cell (fst arc) (snd arc) (fst e)))
               (combine (grid_cells rows cols) (pasted_contents canvas))) =
      map Some (firstn (Z.to_nat (get_required_panel_count (layout_type config))) panels) ++
      repeat None (Z.to_nat (get_required_panel_count (layout_type config))
                   - List.length panels).
Proof.
  intros rows cols cs arc Hw Hh Htw Hth Ha Hps.
  pose proof (non_anchor_count_grid (layout_type config) (anchor_position config))
    as Hcount. fold rows cols arc in Hcount.
  destruct arc as [ar ac] eqn:Earc.
  destruct (run_cells_layout text_bbox anchor_image panels thoughts config cs
              Htw Hth Ha Hps ar ac (grid_cells rows cols) 0%nat
              (Blank (fst (output_size config)) (snd (output_size config))
                 (background_color config)))
    as (pi' & canvas & L & Hrun & HL & Hpos & Hanc & Hf).
  exists canvas.
  unfold compose_collage.
  destruct (get_layout_grid (layout_type config)) as [r c] eqn:Eg.
  simpl in rows, cols. subst rows cols.
  rewrite new_image_ok by assumption.
  fold cs arc. rewrite Earc, Hrun.
  cbv zeta in Hcount. fold arc in Hcount. rewrite Earc in Hcount.
  simpl fst in Hcount. simpl snd in Hcount.
  unfold pasted_positions, pasted_contents. rewrite HL. simpl pastes.
  simpl app. rewrite <- Hcount. simpl skipn in Hf. simpl fst; simpl snd.
  split; [reflexivity|]. split; [exact Hpos|]. split; [exact Hanc|]. exact Hf.
Qed.

(** The cells visited by [compose_collage], in row-major order. *)
Lemma grid_cells_length (rows cols : Z) :
  List.length (grid_cells rows cols) = (Z.to_nat rows * Z.to_nat cols)%nat.
Proof.
  assert (H : forall s n,
    List.length (flat_map (fun row => map (fun col => (row, col)) (zrange cols))
                  (map Z.of_nat (seq s n))) = (n * Z.to_nat cols)%nat).
  { intros s n. revert s. induction n as [|n IH]; intros s; simpl; [reflexivity|].
    rewrite length_app, length_map, IH. unfold zrange.
    rewrite length_map, length_seq. reflexivity. }
  apply H.
Qed.

Lemma combine_nth_error_In {A B : Type} (l1 : list A) (l2 : list B) (k : nat)
    (a : A) (b : B) :
  nth_error l1 k = Some a -> nth_error l2 k = Some b -> In (a, b) (combine l1 l2).
Proof.
  revert l2 k. induction l1 as [|x l1 IH]; intros [|y l2] [|k]; simpl;
    try discriminate.
  - intros H1 H2. inversion H1; inversion H2; subst. left; reflexivity.
  - intros H1 H2. right. exact (IH l2 k H1 H2).
Qed.

(** *** Extra properties of the assembler *)

(** [compose_collage] does not fail when the canvas size is non-negative,
    the cells leave a positive target size and the anchor and the panels
    are rasters of positive size; it then pastes exactly rows * cols cell
    images, one per grid cell in row-major order, each at the origin
    [get_cell_position] gives for its cell. *)
Theorem compose_collage_pastes_every_cell (text_bbox : Z -> string -> Z * Z * Z * Z)
    (anchor_image : image) (panels : list image) (thoughts : list string)
    (config : LayoutConfig) :
  let rows := fst (get_layout_grid (layout_type config)) in
  let cols := snd (get_layout_grid (layout_type config)) in
  let cs := calculate_cell_size (output_size config) rows cols (padding config) in
  0 <= fst (output_size config) -> 0 <= snd (output_size config) ->
  0 < fst cs - 2 * border_width config -> 0 < snd cs - 2 * border_width config ->
  raster_ok anchor_image -> Forall raster_ok panels ->
  exists canvas,
    compose_collage text_bbox anchor_image panels thoughts config = Some canvas /\
    List.length (pastes canvas) = (Z.to_nat rows * Z.to_nat cols)%nat /\
    pasted_positions canvas =
      map (fun rc => get_cell_position (fst rc) (snd rc) cs (padding config))
        (grid_cells rows cols).
Proof.
  intros rows cols cs Hw Hh Htw Hth Ha Hps.
  destruct (compose_collage_layout text_bbox anchor_image panels thoughts config
              Hw Hh Htw Hth Ha Hps) as (canvas & Hc & Hpos & _ & _).
  exists canvas. split; [exact Hc|]. split; [|exact Hpos].
  rewrite <- (grid_cells_length rows cols).
  apply (f_equal (@List.length _)) in Hpos.
  unfold pasted_positions in Hpos. rewrite !length_map in Hpos. exact Hpos.
Qed.

Lemma compose_collage_pastes_every_cell_witness :
  (0 <= fst (output_size default_config) /\ 0 <= snd (output_size default_config) /\
   0 < fst (calculate_cell_size (output_size default_config) 2 2
              (padding default_config)) - 2 * border_width default_config /\
   0 < snd (calculate_cell_size (output_size default_config) 2 2
              (padding default_config)) - 2 * border_width default_config /\
   raster_ok (Source 0 600 600) /\ Forall raster_ok [Source 1 400 300]) /\
  exists canvas,
    compose_collage (fun _ _ => (0, 0, 40, 14)) (Source 0 600 600)
      [Source 1 400 300] [] default_config = Some canvas /\
    List.length (pastes canvas) = (Z.to_nat 2 * Z.to_nat 2)%nat /\
    pasted_positions canvas =
      map (fun rc => get_cell_position (fst rc) (snd rc)
             (calculate_cell_size (output_size default_config) 2 2
                (padding default_config)) (padding default_config))
        (grid_cells 2 2).
Proof.
  split; [simpl; repeat split; try lia; repeat constructor; simpl; lia|].
  apply (compose_collage_pastes_every_cell (fun _ _ => (0, 0, 40, 14))
           (Source 0 600 600) [Source 1 400 300] [] default_config);
    simpl; try lia; repeat constructor; simpl; lia.
Defined.

(** Under the same conditions, the cells other than the anchor cell show,
    in row-major order, the first [get_required_panel_count] panels in list
    order, followed by blank cells when there are fewer panels: panels
    beyond the layout's capacity are not drawn. *)
Theorem compose_collage_panel_order (text_bbox : Z -> string -> Z * Z * Z * Z)
    (anchor_image : image) (panels : list image) (thoughts : list string)
    (config : LayoutConfig) :
  let rows := fst (get_layout_grid (layout_type config)) in
  let cols := snd (get_layout_grid (layout_type config)) in
  let cs := calculate_cell_size (output_size config) rows cols (padding config) in
  let arc := get_anchor_grid_position (anchor_position config) rows cols in
  let n := Z.to_nat (get_required_panel_count (layout_type config)) in
  0 <= fst (output_size config) -> 0 <= snd (output_size config) ->
  0 < fst cs - 2 * border_width config -> 0 < snd cs - 2 * border_width config ->
  raster_ok anchor_image -> Forall raster_ok panels ->
  exists canvas,
    compose_collage text_bbox anchor_image panels thoughts config = Some canvas /\
    map snd (filter (fun e => negb (is_cell (fst arc) (snd arc) (fst e)))
               (combine (grid_cells rows cols) (pasted_contents canvas))) =
      map Some (firstn n panels) ++ repeat None (n - List.length panels).
Proof.
  intros rows cols cs arc n Hw Hh Htw Hth Ha Hps.
  destruct (compose_collage_layout text_bbox anchor_image panels thoughts config
              Hw Hh Htw Hth Ha Hps) as (canvas & Hc & _ & _ & Hf).
  exists canvas. split; [exact Hc | exact Hf].
Qed.

Lemma compose_collage_panel_order_witness :
  (0 <= fst (output_size default_config) /\ 0 <= snd (output_size default_config) /\
   0 < fst (calculate_cell_size (output_size default_config) 2 2
              (padding default_config)) - 2 * border_width default_config /\
   0 < snd (calculate_cell_size (output_size default_config) 2 2
              (padding default_config)) - 2 * border_width default_config /\
   raster_ok (Source 0 600 600) /\
   Forall raster_ok [Source 1 400 300; Source 2 300 400; Source 3 50 50;
                     Source 4 70 70]) /\
  exists canvas,
    compose_collage (fun _ _ => (0, 0, 40, 14)) (Source 0 600 600)
      [Source 1 400 300; Source 2 300 400; Source 3 50 50; Source 4 70 70] []
      default_config = Some canvas /\
    map snd (filter (fun e => negb (is_cell 0 0 (fst e)))
               (combine (grid_cells 2 2) (pasted_contents canvas))) =
      map Some (firstn 3 [Source 1 400 300; Source 2 300 400; Source 3 50 50;
                          Source 4 70 70]) ++ repeat None (3 - 4).
Proof.
  split; [simpl; repeat split; try lia; repeat constructor; simpl; lia|].
  apply (compose_collage_panel_order (fun _ _ => (0, 0, 40, 14))
           (Source 0 600 600)
           [Source 1 400 300; Source 2 300 400; Source 3 50 50; Source 4 70 70]
           [] default_config);
    simpl; try lia; repeat constructor; simpl; lia.
Defined.

(** Under the same conditions, the anchor cell shows the anchor image. *)
Theorem compose_collage_anchor_cell (text_bbox : Z -> string -> Z * Z * Z * Z)
    (anchor_image : image) (panels : list image) (thoughts : list string)
    (config : LayoutConfig) :
  let rows := fst (get_layout_grid (layout_type config)) in
  let cols := snd (get_layout_grid (layout_type config)) in
  let cs := calculate_cell_size (output_size config) rows cols (padding config) in
  let arc := get_anchor_grid_position (anchor_position config) rows cols in
  0 <= fst (output_size config) -> 0 <= snd (output_size config) ->
  0 < fst cs - 2 * border_width config -> 0 < snd cs - 2 * border_width config ->
  raster_ok anchor_image -> Forall raster_ok panels ->
  exists canvas,
    compose_collage text_bbox anchor_image panels thoughts config = Some canvas /\
    In (arc, Some anchor_image) (combine (grid_cells rows cols) (pasted_contents canvas)) /\
    (forall c, In (arc, c) (combine (grid_cells rows cols) (pasted_contents canvas)) ->
       c = Some anchor_image).
Proof.
  intros rows cols cs arc Hw Hh Htw Hth Ha Hps.
  destruct (compose_collage_layout text_bbox anchor_image panels thoughts config
              Hw Hh Htw Hth Ha Hps) as (canvas & Hc & Hpos & Hanc & _).
  exists canvas. split; [exact Hc|]. split; [|exact Hanc].
  (* the anchor cell is one of the grid cells, and every grid cell has a paste *)
  assert (Hlen : List.length (pasted_contents canvas) =
                 List.length (grid_cells rows cols)).
  { apply (f_equal (@List.length _)) in Hpos.
    unfold pasted_positions, pasted_contents in *.
    rewrite !length_map in *. exact Hpos. }
  assert (Hin : In arc (grid_cells rows cols)).
  { assert (Hr : 1 <= rows /\ 1 <= cols)
      by (subst rows cols; destruct (layout_type config); simpl; lia).
    assert (Hrange : 0 <= fst arc < rows /\ 0 <= snd arc < cols).
    { destruct Hr as [Hr Hc']. subst arc.
      pose proof (Z.div_pos rows 2 ltac:(lia) ltac:(lia)).
      pose proof (Z.div_pos cols 2 ltac:(lia) ltac:(lia)).
      pose proof (Z.div_lt rows 2 ltac:(lia) ltac:(lia)).
      pose proof (Z.div_lt cols 2 ltac:(lia) ltac:(lia)).
      destruct (anchor_position config); simpl; lia. }
    destruct arc as [ar ac]. simpl in Hrange.
    unfold grid_cells. apply in_flat_map. exists ar. split.
    - unfold zrange. apply in_map_iff. exists (Z.to_nat ar).
      split; [lia | apply in_seq; lia].
    - apply in_map_iff. exists ac. split; [reflexivity|].
      unfold zrange. apply in_map_iff. exists (Z.to_nat ac).
      split; [lia | apply in_seq; lia]. }
  apply In_nth_error in Hin as [k Hk].
  destruct (nth_error (pasted_contents canvas) k) as [c|] eqn:Hck.
  - assert (Hcomb : In (arc, c) (combine (grid_cells rows cols) (pasted_contents canvas))).
    { exact (combine_nth_error_In _ _ k _ _ Hk Hck). }
    rewrite <- (Hanc c Hcomb). exact Hcomb.
  - apply nth_error_None in Hck.
    assert (k < List.length (grid_cells rows cols))%nat
      by (apply nth_error_Some; rewrite Hk; discriminate).
    lia.
Qed.

Lemma compose_collage_anchor_cell_witness :
  (0 <= fst (output_size (publish_config 3)) /\ 0 <= snd (output_size (publish_config 3)) /\
   0 < fst (calculate_cell_size (output_size (publish_config 3)) 1 3
              (padding (publish_config 3))) - 2 * border_width (publish_config 3) /\
   0 < snd (calculate_cell_size (output_size (publish_config 3)) 1 3
              (padding (publish_config 3))) - 2 * border_width (publish_config 3) /\
   raster_ok (Source 0 600 600) /\ Forall raster_ok [Source 1 400 300]) /\
  exists canvas,
    compose_collage (fun _ _ => (0, 0, 40, 14)) (Source 0 600 600)
      [Source 1 400 300] [] (publish_config 3) = Some canvas /\
    In ((0, 0), Some (Source 0 600 600))
      (combine (grid_cells 1 3) (pasted_contents canvas)) /\
    (forall c, In ((0, 0), c) (combine (grid_cells 1 3) (pasted_contents canvas)) ->
       c = Some (Source 0 600 600)).
Proof.
  split; [simpl; repeat split; try lia; repeat constructor; simpl; lia|].
  apply (compose_collage_anchor_cell (fun _ _ => (0, 0, 40, 14))
           (Source 0 600 600) [Source 1 400 300] [] (publish_config 3));
    simpl; try lia; repeat constructor; simpl; lia.
Defined.

(** For every layout and anchor position, [get_required_panel_count] is
    the number of cells the loop of [compose_collage] fills with panels
    (its grid cells other than the anchor cell), and the grid has
    [get_panel_count] cells. *)
Theorem required_panel_count_matches_grid (layout : LayoutType)
    (pos : AnchorPosition) :
  let rows := fst (get_layout_grid layout) in
  let cols := snd (get_layout_grid layout) in
  let arc := get_anchor_grid_position pos rows cols in
  List.length (grid_cells rows cols) = Z.to_nat (get_panel_count layout) /\
  List.length (filter (fun rc => negb (is_cell (fst arc) (snd arc) rc))
                 (grid_cells rows cols)) =
    Z.to_nat (get_required_panel_count layout).
Proof.
  intros rows cols arc. split.
  - rewrite grid_cells_length. subst rows cols.
    unfold get_panel_count. destruct layout; reflexivity.
  - exact (non_anchor_count_grid layout pos).
Qed.

(** *** Per-cell facts, lifted to the whole collage *)

Lemma new_image_inv (w h : Z) (color : rgb) (im : image) :
  new_image w h color = Some im -> im = Blank w h color /\ 0 <= w /\ 0 <= h.
Proof.
  unfold new_image. destruct (w <? 0) eqn:E1, (h <? 0) eqn:E2; simpl;
    try discriminate.
  intros H; inversion H. apply Z.ltb_ge in E1, E2. auto.
Qed.

Lemma resize_image_to_cell_size (im out : image) (cell_size : Z * Z) (bw : Z) :
  resize_image_to_cell im cell_size bw = Some out ->
  size out = (fst cell_size - 2 * bw, snd cell_size - 2 * bw).
Proof.
  unfold resize_image_to_cell.
  destruct (scaled_size (width im) (height im) (fst cell_size - 2 * bw)
              (snd cell_size - 2 * bw)) as [[nw nh]|]; simpl; [|discriminate].
  destruct (pil_resize im nw nh) as [r|]; [|discriminate].
  unfold pil_crop. destruct (_ || _); [discriminate|].
  intros H; inversion H; subst; simpl. f_equal; lia.
Qed.

Lemma add_caption_to_image_size (text_bbox : Z -> string -> Z * Z * Z * Z)
    (im : image) (caption : string) (font_size : Z) (text_color : rgb)
    (bg_opacity : Z) :
  size (add_caption_to_image text_bbox im caption font_size text_color bg_opacity)
  = size im.
Proof. unfold add_caption_to_image. destruct (skip_caption caption); reflexivity. Qed.

(** Case analysis on one run of the loop body of [compose_collage]. *)
Ltac cell_cases :=
  unfold compose_cell; cbn beta iota;
  match goal with
  | |- context [if (?r =? ?ar) && (?c =? ?ac) then _ else _] =>
      destruct ((r =? ar) && (c =? ac))
  end;
  [ match goal with
    | |- context [resize_image_to_cell ?a ?cs ?bw] =>
        destruct (resize_image_to_cell a cs bw) as [ci|] eqn:Hci; [|discriminate]
    end
  | match goal with
    | |- context [nth_error ?ps ?pi] =>
        destruct (nth_error ps pi) as [p|] eqn:Hp;
        [ match goal with
          | |- context [resize_image_to_cell ?a ?cs ?bw] =>
              destruct (resize_image_to_cell a cs bw) as [ci|] eqn:Hci;
              [|discriminate]
          end
        | match goal with
          | |- context [new_image ?w ?h ?col] =>
              destruct (new_image w h col) as [ci|] eqn:Hci; [|discriminate]
          end ]
    end ];
  cbn beta iota;
  match goal with
  | |- context [if 0 <? ?bw then _ else _] =>
      destruct (0 <? bw) eqn:Hb;
      [ match goal with
        | |- context [new_image ?w ?h ?col] =>
            destruct (new_image w h col) as [bd|] eqn:Hbd; [|discriminate]
        end | ]
  end;
  intros Hst; inversion Hst; subst; clear Hst.

Lemma compose_cell_no_caption (text_bbox : Z -> string -> Z * Z * Z * Z)
    (anchor_image : image) (panels : list image) (thoughts : list string)
    (config : LayoutConfig) (cell_size anchor_rc : Z * Z) (st st1 : nat * image)
    (rc : Z * Z) (im : image) (x y : Z) :
  show_captions config = false ->
  has_caption anchor_image = false ->
  Forall (fun p => has_caption p = false) panels ->
  compose_cell text_bbox anchor_image panels thoughts config cell_size anchor_rc
    st rc = Some st1 ->
  snd st1 = Pasted (snd st) im x y ->
  has_caption im = false.
Proof.
  intros Hshow Ha Hps. destruct st as [pi cv], rc as [row col],
    anchor_rc as [ar ac].
  rewrite Forall_forall in Hps.
  cell_cases; rewrite Hshow; simpl; intros E; inversion E; subst; simpl;
    repeat match goal with
    | H : new_image _ _ _ = Some _ |- _ => apply new_image_inv in H as [-> _]
    | H : resize_image_to_cell _ _ _ = Some _ |- _ =>
        apply resize_image_to_cell_has_caption in H
    end; simpl; try congruence.
  - rewrite Hci. apply Hps. eapply nth_error_In; eassumption.
  - rewrite Hci. apply Hps. eapply nth_error_In; eassumption.
Qed.

Lemma compose_cell_size (text_bbox : Z -> string -> Z * Z * Z * Z)
    (anchor_image : image) (panels : list image) (thoughts : list string)
    (config : LayoutConfig) (cell_size anchor_rc : Z * Z) (st st1 : nat * image)
    (rc : Z * Z) (im : image) (x y : Z) :
  0 <= border_width config ->
  compose_cell text_bbox anchor_image panels thoughts config cell_size anchor_rc
    st rc = Some st1 ->
  snd st1 = Pasted (snd st) im x y ->
  size im = cell_size.
Proof.
  intros Hbw. destruct st as [pi cv], rc as [row col], anchor_rc as [ar ac].
  destruct cell_size as [cw ch].
  cell_cases; simpl; intros E; inversion E; subst;
    repeat match goal with
    | H : new_image _ _ _ = Some _ |- _ => apply new_image_inv in H as [-> _]
    | H : resize_image_to_cell _ _ _ = Some _ |- _ =>
        apply resize_image_to_cell_size in H
    end; try reflexivity.
  all: apply Z.ltb_ge in Hb; assert (Hz : border_width config = 0) by lia;
    match goal with
    | |- size (if ?c then _ else _) = _ => destruct c
    end; rewrite ?add_caption_to_image_size; try rewrite Hci; rewrite Hz;
    simpl; f_equal; lia.
Qed.


Lemma Forall2_in_r {A B : Type} (R : A -> B -> Prop) (l1 : list A) (l2 : list B)
    (b : B) :
  Forall2 R l1 l2 -> In b l2 -> exists a, R a b.
Proof.
  intros HF. induction HF as [|x y l1 l2 Hxy HF IH]; simpl; [contradiction|].
  intros [-> | Hin]; [eauto | exact (IH Hin)].
Qed.

Lemma compose_collage_cells (text_bbox : Z -> string -> Z * Z * Z * Z)
    (anchor_image : image) (panels : list image) (thoughts : list string)
    (config : LayoutConfig) (canvas : image) :
  compose_collage text_bbox anchor_image panels thoughts config = Some canvas ->
  forall im x y, In (im, x, y) (pastes canvas) ->
    exists cs arc st0 st1 rc,
      cs = calculate_cell_size (output_size config)
             (fst (get_layout_grid (layout_type config)))
             (snd (get_layout_grid (layout_type config))) (padding config) /\
      compose_cell text_bbox anchor_image panels thoughts config cs arc st0 rc
        = Some st1 /\
      snd st1 = Pasted (snd st0) im x y.
Proof.
  unfold compose_collage. intros H.
  destruct (get_layout_grid (layout_type config)) as [r c]. simpl fst; simpl snd.
  destruct (new_image _ _ _) as [collage|] eqn:Hn; [|discriminate].
  apply new_image_inv in Hn as [-> _].
  match type of H with
  | match run_cells ?tb ?a ?ps ?ts ?cf ?cs ?arc ?cells ?st0 with _ => _ end = _ =>
      destruct (run_cells tb a ps ts cf cs arc cells st0) as [st|] eqn:Hrun;
        [|discriminate]
  end.
  inversion H; subst canvas. clear H.
  destruct (run_cells_pastes _ _ _ _ _ _ _ _ _ _ Hrun) as (L & HL & HF).
  rewrite HL. simpl. intros im x y Hin.
  destruct (Forall2_in_r _ _ _ _ HF Hin) as (rc & st0 & st1 & Hc & Hs).
  do 5 eexists. split; [reflexivity|]. split; [exact Hc | exact Hs].
Qed.

(** With captions disabled, [compose_collage] draws no caption overlay on
    any cell, whatever the thoughts are (for caller rasters as anchor and
    panels). *)
Theorem compose_collage_no_captions_when_disabled
    (text_bbox : Z -> string -> Z * Z * Z * Z) (anchor_image : image)
    (panels : list image) (thoughts : list string) (config : LayoutConfig)
    (canvas : image) :
  show_captions config = false ->
  raster_ok anchor_image -> Forall raster_ok panels ->
  compose_collage text_bbox anchor_image panels thoughts config = Some canvas ->
  forall im x y, In (im, x, y) (pastes canvas) -> has_caption im = false.
Proof.
  intros Hshow Ha Hps Hc im x y Hin.
  destruct (compose_collage_cells _ _ _ _ _ _ Hc im x y Hin)
    as (cs & arc & st0 & st1 & rc & _ & Hcell & Hs).
  eapply compose_cell_no_caption; try eassumption.
  - apply raster_ok_content; exact Ha.
  - eapply Forall_impl; [|exact Hps]. intros p Hp. apply raster_ok_content; exact Hp.
Qed.

(** With a non-negative border width, every cell image [compose_collage]
    pastes has exactly the cell size computed by [calculate_cell_size]:
    with a border the bordered frame, without one the fitted image. *)
Theorem compose_collage_cell_images_have_cell_size
    (text_bbox : Z -> string -> Z * Z * Z * Z) (anchor_image : image)
    (panels : list image) (thoughts : list string) (config : LayoutConfig)
    (canvas : image) :
  0 <= border_width config ->
  compose_collage text_bbox anchor_image panels thoughts config = Some canvas ->
  forall im x y, In (im, x, y) (pastes canvas) ->
    size im = calculate_cell_size (output_size config)
                (fst (get_layout_grid (layout_type config)))
                (snd (get_layout_grid (layout_type config))) (padding config).
Proof.
  intros Hbw Hc im x y Hin.
  destruct (compose_collage_cells _ _ _ _ _ _ Hc im x y Hin)
    as (cs & arc & st0 & st1 & rc & -> & Hcell & Hs).
  exact (compose_cell_size _ _ _ _ _ _ _ _ _ _ _ _ _ Hbw Hcell Hs).
Qed.

Lemma compose_collage_no_captions_when_disabled_witness :
  exists canvas,
    compose_collage (fun _ _ => (0, 0, 40, 14)) (Source 0 600 600)
      [Source 1 400 300; Source 2 300 500] ["a"%string; "b"%string]
      default_config = Some canvas /\
    show_captions default_config = false /\
    raster_ok (Source 0 600 600) /\
    Forall raster_ok [Source 1 400 300; Source 2 300 500] /\
    (forall im x y, In (im, x, y) (pastes canvas) -> has_caption im = false).
Proof.
  eexists. split; [reflexivity|].
  split; [reflexivity|]. split; [simpl; lia|].
  split; [repeat constructor; simpl; lia|].
  apply (compose_collage_no_captions_when_disabled (fun _ _ => (0, 0, 40, 14))
           (Source 0 600 600) [Source 1 400 300; Source 2 300 500]
           ["a"%string; "b"%string] default_config);
    [reflexivity | simpl; lia | repeat constructor; simpl; lia | reflexivity].
Defined.

Lemma compose_collage_cell_images_have_cell_size_witness :
  exists canvas,
    compose_collage (fun _ _ => (0, 0, 40, 14)) (Source 0 600 600)
      [Source 1 400 300] [] default_config = Some canvas /\
    0 <= border_width default_config /\
    (forall im x y, In (im, x, y) (pastes canvas) ->
       size im = calculate_cell_size (output_size default_config) 2 2
                   (padding default_config)).
Proof.
  eexists. split; [reflexivity|]. split; [simpl; lia|].
  apply (compose_collage_cell_images_have_cell_size (fun _ _ => (0, 0, 40, 14))
           (Source 0 600 600) [Source 1 400 300] [] default_config);
    [simpl; lia | reflexivity].
Defined.

(** *** Grid geometry *)

Lemma in_zrange (n k : Z) : In k (zrange n) <-> 0 <= k < n.
Proof.
  unfold zrange. rewrite in_map_iff. split.
  - intros (m & <- & Hm). apply in_seq in Hm. lia.
  - intros Hk. exists (Z.to_nat k). split; [lia|]. apply in_seq. lia.
Qed.

Lemma in_grid_cells (rows cols r c : Z) :
  In (r, c) (grid_cells rows cols) <-> 0 <= r < rows /\ 0 <= c < cols.
Proof.
  unfold grid_cells. rewrite in_flat_map. split.
  - intros (row & Hrow & Hin). apply in_map_iff in Hin as (col & E & Hcol).
    inversion E; subst. apply in_zrange in Hrow, Hcol. auto.
  - intros [Hr Hc]. exists r. split; [apply in_zrange; exact Hr|].
    apply in_map_iff. exists c. split; [reflexivity|]. apply in_zrange; exact Hc.
Qed.

Lemma NoDup_map_inj {A B : Type} (f : A -> B) (l : list A) :
  (forall x y, f x = f y -> x = y) -> NoDup l -> NoDup (map f l).
Proof.
  intros Hf HN. induction HN as [|x l Hx HN IH]; simpl; constructor; [|exact IH].
  intros Hin. apply in_map_iff in Hin as (y & E & Hy). apply Hf in E. subst. contradiction.
Qed.

Lemma zrange_NoDup (n : Z) : NoDup (zrange n).
Proof. apply NoDup_map_inj; [intros x y E; lia | apply seq_NoDup]. Qed.

Lemma grid_cells_NoDup (rows cols : Z) : NoDup (grid_cells rows cols).
Proof.
  unfold grid_cells. pose proof (zrange_NoDup rows) as HN.
  induction HN as [|row l Hrow HN IH]; simpl; [constructor|].
  apply NoDup_app; [|exact IH|].
  - apply NoDup_map_inj; [intros x y E; inversion E; reflexivity | apply zrange_NoDup].
  - intros rc Hin Hin'. apply in_map_iff in Hin as (col & <- & _).
    apply in_flat_map in Hin' as (row' & Hrow' & Hin').
    apply in_map_iff in Hin' as (col' & E & _). inversion E; subst. contradiction.
Qed.

Lemma Forall2_nth_error_r {A B : Type} (R : A -> B -> Prop) (l1 : list A)
    (l2 : list B) (i : nat) (b : B) :
  Forall2 R l1 l2 -> nth_error l2 i = Some b ->
  exists a, nth_error l1 i = Some a /\ R a b.
Proof.
  intros HF. revert i. induction HF as [|x y l1 l2 Hxy HF IH]; intros [|i]; simpl;
    try discriminate.
  - intros E; inversion E; subst. eauto.
  - apply IH.
Qed.

Lemma get_layout_grid_pos (layout : LayoutType) :
  1 <= fst (get_layout_grid layout) /\ 1 <= snd (get_layout_grid layout).
Proof. destruct layout; simpl; lia. Qed.

(** A cell of the grid, widened by the padding on its right and bottom,
    stays inside the canvas, and its origin is at least one padding away
    from the top-left corner. *)
Lemma cell_position_in_canvas (W H rows cols p r c : Z) :
  1 <= rows -> 1 <= cols -> 0 <= p ->
  p * (cols + 1) <= W -> p * (rows + 1) <= H ->
  0 <= r < rows -> 0 <= c < cols ->
  let cs := calculate_cell_size (W, H) rows cols p in
  let xy := get_cell_position r c cs p in
  0 <= fst cs /\ 0 <= snd cs /\
  p <= fst xy /\ fst xy + fst cs + p <= W /\
  p <= snd xy /\ snd xy + snd cs + p <= H.
Proof.
  intros Hr Hc Hp HW HH Hri Hci. cbv zeta.
  unfold calculate_cell_size, get_cell_position. simpl fst; simpl snd.
  set (cw := (W - p * (cols + 1)) / cols).
  set (ch := (H - p * (rows + 1)) / rows).
  assert (Hcw : cols * cw <= W - p * (cols + 1)) by (apply Z.mul_div_le; lia).
  assert (Hch : rows * ch <= H - p * (rows + 1)) by (apply Z.mul_div_le; lia).
  assert (Hcw0 : 0 <= cw) by (apply Z.div_pos; lia).
  assert (Hch0 : 0 <= ch) by (apply Z.div_pos; lia).
  repeat split; try lia; nia.
Qed.

(** Two distinct cells of the grid, each of the cell size, are at least a
    padding apart along one axis, so they do not overlap. *)
Lemma cell_positions_apart (cs : Z * Z) (p r1 c1 r2 c2 : Z) :
  0 <= fst cs -> 0 <= snd cs -> 0 <= p ->
  (r1, c1) <> (r2, c2) ->
  let xy1 := get_cell_position r1 c1 cs p in
  let xy2 := get_cell_position r2 c2 cs p in
  fst xy1 + fst cs + p <= fst xy2 \/ fst xy2 + fst cs + p <= fst xy1 \/
  snd xy1 + snd cs + p <= snd xy2 \/ snd xy2 + snd cs + p <= snd xy1.
Proof.
  intros Hw Hh Hp Hne. cbv zeta. unfold get_cell_position. simpl fst; simpl snd.
  destruct cs as [cw ch]. simpl in Hw, Hh |- *.
  destruct (Z.lt_trichotomy c1 c2) as [Hlt | [Heq | Hgt]].
  - left. nia.
  - subst c2. destruct (Z.lt_trichotomy r1 r2) as [Hlt | [Heq | Hgt]].
    + right; right; left. nia.
    + subst. contradiction.
    + right; right; right. nia.
  - right; left. nia.
Qed.

Lemma run_cells_size (text_bbox : Z -> string -> Z * Z * Z * Z)
    (anchor_image : image) (panels : list image) (thoughts : list string)
    (config : LayoutConfig) (cell_size anchor_rc : Z * Z) (cells : list (Z * Z))
    (st st' : nat * image) :
  run_cells text_bbox anchor_image panels thoughts config cell_size anchor_rc
    cells st = Some st' ->
  size (snd st') = size (snd st).
Proof.
  revert st. induction cells as [|rc cells IH]; intros st; simpl.
  - intros H; inversion H; subst. reflexivity.
  - destruct (compose_cell text_bbox anchor_image panels thoughts config
                cell_size anchor_rc st rc) as [st1|] eqn:Hc; [|discriminate].
    intros Hrun. rewrite (IH st1 Hrun).
    destruct (compose_cell_pastes _ _ _ _ _ _ _ _ _ _ Hc) as [im ->].
    reflexivity.
Qed.

Lemma compose_collage_run (text_bbox : Z -> string -> Z * Z * Z * Z)
    (anchor_image : image) (panels : list image) (thoughts : list string)
    (config : LayoutConfig) (canvas : image) :
  let rows := fst (get_layout_grid (layout_type config)) in
  let cols := snd (get_layout_grid (layout_type config)) in
  let cs := calculate_cell_size (output_size config) rows cols (padding config) in
  let arc := get_anchor_grid_position (anchor_position config) rows cols in
  compose_collage text_bbox anchor_image panels thoughts config = Some canvas ->
  size canvas = output_size config /\
  Forall2 (fun rc p =>
      exists st0 st1,
        compose_cell text_bbox anchor_image panels thoughts config cs arc st0 rc
          = Some st1 /\
        snd st1 = Pasted (snd st0) (fst (fst p)) (snd (fst p)) (snd p))
    (grid_cells rows cols) (pastes canvas).
Proof.
  intros rows cols cs arc. unfold compose_collage.
  destruct (get_layout_grid (layout_type config)) as [r c] eqn:Eg.
  simpl in rows, cols. subst rows cols. fold cs. fold arc. intros H.
  destruct (new_image _ _ _) as [collage|] eqn:Hn; [|discriminate].
  apply new_image_inv in Hn as [-> _].
  destruct (run_cells text_bbox anchor_image panels thoughts config cs arc
              (grid_cells r c) (0%nat, Blank (fst (output_size config))
                 (snd (output_size config)) (background_color config)))
    as [st|] eqn:Hrun; [|discriminate].
  inversion H; subst canvas. clear H.
  destruct (run_cells_pastes _ _ _ _ _ _ _ _ _ _ Hrun) as (L & HL & HF).
  split.
  - rewrite (run_cells_size _ _ _ _ _ _ _ _ _ _ Hrun). simpl.
    destruct (output_size config); reflexivity.
  - rewrite HL. simpl. exact HF.
Qed.

Lemma compose_collage_nth_paste (text_bbox : Z -> string -> Z * Z * Z * Z)
    (anchor_image : image) (panels : list image) (thoughts : list string)
    (config : LayoutConfig) (canvas : image) (i : nat) (im : image) (x y : Z) :
  let rows := fst (get_layout_grid (layout_type config)) in
  let cols := snd (get_layout_grid (layout_type config)) in
  let cs := calculate_cell_size (output_size config) rows cols (padding config) in
  0 <= border_width config ->
  compose_collage text_bbox anchor_image panels thoughts config = Some canvas ->
  nth_error (pastes canvas) i = Some (im, x, y) ->
  exists r c,
    nth_error (grid_cells rows cols) i = Some (r, c) /\
    (x, y) = get_cell_position r c cs (padding config) /\
    size im = cs.
Proof.
  intros rows cols cs Hbw Hc Hi.
  destruct (compose_collage_run _ _ _ _ _ _ Hc) as [_ HF].
  destruct (Forall2_nth_error_r _ _ _ _ _ HF Hi)
    as ([r c] & Hrc & st0 & st1 & Hcell & Hs).
  exists r, c. split; [exact Hrc|]. simpl in Hs.
  destruct (compose_cell_pastes _ _ _ _ _ _ _ _ _ _ Hcell) as [im' Hs'].
  rewrite Hs in Hs'. inversion Hs'; subst im'.
  split; [unfold get_cell_position; reflexivity|].
  exact (compose_cell_size _ _ _ _ _ _ _ _ _ _ _ _ _ Hbw Hcell Hs).
Qed.

(** When the paddings fit in the output size, every cell image that
    [compose_collage] pastes lies inside the canvas (which keeps the output
    size), with at least one padding of margin on every side. *)
Theorem compose_collage_cells_inside_canvas
    (text_bbox : Z -> string -> Z * Z * Z * Z) (anchor_image : image)
    (panels : list image) (thoughts : list string) (config : LayoutConfig)
    (canvas : image) :
  let rows := fst (get_layout_grid (layout_type config)) in
  let cols := snd (get_layout_grid (layout_type config)) in
  let p := padding config in
  0 <= p -> 0 <= border_width config ->
  p * (cols + 1) <= fst (output_size config) ->
  p * (rows + 1) <= snd (output_size config) ->
  compose_collage text_bbox anchor_image panels thoughts config = Some canvas ->
  size canvas = output_size config /\
  forall im x y, In (im, x, y) (pastes canvas) ->
    p <= x /\ x + width im + p <= fst (output_size config) /\
    p <= y /\ y + height im + p <= snd (output_size config).
Proof.
  intros rows cols p Hp Hbw HW HH Hc. subst rows cols p.
  split; [exact (proj1 (compose_collage_run _ _ _ _ _ _ Hc))|].
  intros im x y Hin. apply In_nth_error in Hin as [i Hi].
  destruct (compose_collage_nth_paste _ _ _ _ _ _ _ _ _ _ Hbw Hc Hi)
    as (r & c & Hrc & Hxy & Hsz).
  apply nth_error_In, in_grid_cells in Hrc.
  destruct (get_layout_grid_pos (layout_type config)) as [Hr1 Hc1].
  destruct (output_size config) as [W H] eqn:EW. simpl in HW, HH |- *.
  pose proof (cell_position_in_canvas W H _ _ _ r c Hr1 Hc1 Hp HW HH
                (proj1 Hrc) (proj2 Hrc)) as G. cbv zeta in G.
  unfold width, height. rewrite Hsz.
  unfold get_cell_position in Hxy, G. inversion Hxy; subst x y.
  simpl in G |- *. lia.
Qed.

(** Under the same conditions, two different pastes of [compose_collage]
    never overlap: one lies at least a padding to the left of, to the right
    of, above or below the other. *)
Theorem compose_collage_cells_disjoint
    (text_bbox : Z -> string -> Z * Z * Z * Z) (anchor_image : image)
    (panels : list image) (thoughts : list string) (config : LayoutConfig)
    (canvas : image) (i j : nat) (im1 im2 : image) (x1 y1 x2 y2 : Z) :
  let rows := fst (get_layout_grid (layout_type config)) in
  let cols := snd (get_layout_grid (layout_type config)) in
  let p := padding config in
  0 <= p -> 0 <= border_width config ->
  p * (cols + 1) <= fst (output_size config) ->
  p * (rows + 1) <= snd (output_size config) ->
  compose_collage text_bbox anchor_image panels thoughts config = Some canvas ->
  i <> j ->
  nth_error (pastes canvas) i = Some (im1, x1, y1) ->
  nth_error (pastes canvas) j = Some (im2, x2, y2) ->
  x1 + width im1 + p <= x2 \/ x2 + width im2 + p <= x1 \/
  y1 + height im1 + p <= y2 \/ y2 + height im2 + p <= y1.
Proof.
  intros rows cols p Hp Hbw HW HH Hc Hij Hi Hj. subst rows cols p.
  destruct (compose_collage_nth_paste _ _ _ _ _ _ _ _ _ _ Hbw Hc Hi)
    as (r1 & c1 & Hrc1 & Hxy1 & Hsz1).
  destruct (compose_collage_nth_paste _ _ _ _ _ _ _ _ _ _ Hbw Hc Hj)
    as (r2 & c2 & Hrc2 & Hxy2 & Hsz2).
  assert (Hne : (r1, c1) <> (r2, c2)).
  { intros E. rewrite E in Hrc1. apply Hij.
    apply (proj1 (NoDup_nth_error _) (grid_cells_NoDup (fst (get_layout_grid (layout_type config))) (snd (get_layout_grid (layout_type config)))) i j).
    - apply nth_error_Some. rewrite Hrc1. discriminate.
    - rewrite Hrc1, Hrc2. reflexivity. }
  pose proof Hrc1 as Hin. apply nth_error_In, in_grid_cells in Hin.
  destruct (get_layout_grid_pos (layout_type config)) as [Hr1 Hc1].
  destruct (output_size config) as [W H] eqn:EW. simpl in HW, HH.
  pose proof (cell_position_in_canvas W H _ _ _ r1 c1 Hr1 Hc1 Hp HW HH
                (proj1 Hin) (proj2 Hin)) as G. cbv zeta in G.
  destruct G as (Gw & Gh & _).
  pose proof (cell_positions_apart _ _ r1 c1 r2 c2 Gw Gh Hp Hne) as A.
  cbv zeta in A.
  rewrite <- Hxy1, <- Hxy2 in A. simpl in A.
  unfold width, height. rewrite Hsz1, Hsz2. exact A.
Qed.

Lemma compose_collage_cells_inside_canvas_witness :
  exists canvas,
    compose_collage (fun _ _ => (0, 0, 40, 14)) (Source 0 600 600)
      [Source 1 400 300] [] default_config = Some canvas /\
    0 <= padding default_config /\ 0 <= border_width default_config /\
    padding default_config * (2 + 1) <= fst (output_size default_config) /\
    padding default_config * (2 + 1) <= snd (output_size default_config) /\
    size canvas = output_size default_config /\
    (forall im x y, In (im, x, y) (pastes canvas) ->
       padding default_config <= x /\
       x + width im + padding default_config <= fst (output_size default_config) /\
       padding default_config <= y /\
       y + height im + padding default_config <= snd (output_size default_config)).
Proof.
  eexists. split; [reflexivity|]. split; [simpl; lia|]. split; [simpl; lia|].
  split; [simpl; lia|]. split; [simpl; lia|].
  apply (compose_collage_cells_inside_canvas (fun _ _ => (0, 0, 40, 14))
           (Source 0 600 600) [Source 1 400 300] [] default_config);
    simpl; try lia; reflexivity.
Defined.

Lemma compose_collage_cells_disjoint_witness :
  exists canvas im1 x1 y1 im2 x2 y2,
    compose_collage (fun _ _ => (0, 0, 40, 14)) (Source 0 600 600)
      [Source 1 400 300] [] default_config = Some canvas /\
    nth_error (pastes canvas) 0 = Some (im1, x1, y1) /\
    nth_error (pastes canvas) 1 = Some (im2, x2, y2) /\
    (x1 + width im1 + padding default_config <= x2 \/
     x2 + width im2 + padding default_config <= x1 \/
     y1 + height im1 + padding default_config <= y2 \/
     y2 + height im2 + padding default_config <= y1).
Proof.
  do 7 eexists. split; [reflexivity|]. split; [reflexivity|].
  split; [reflexivity|].
  eapply (compose_collage_cells_disjoint (fun _ _ => (0, 0, 40, 14))
           (Source 0 600 600) [Source 1 400 300] [] default_config _ 0 1);
    simpl; try lia; reflexivity.
Defined.

(** *** The caption overlay *)

Lemma string_append_assoc (s1 s2 s3 : string) :
  String.append (String.append s1 s2) s3 = String.append s1 (String.append s2 s3).
Proof. induction s1 as [|a s1 IH]; simpl; [reflexivity | rewrite IH; reflexivity]. Qed.

Lemma substring_0_prefix (k : nat) (s : string) :
  exists suf, s = String.append (substring 0 k s) suf.
Proof.
  revert k. induction s as [|a s IH]; intros [|k]; simpl.
  - exists EmptyString. reflexivity.
  - exists EmptyString. reflexivity.
  - exists (String a s). reflexivity.
  - destruct (IH k) as [suf E]. exists suf. rewrite <- E. reflexivity.
Qed.

Lemma substring_0_append (k : nat) (s t : string) :
  (k <= String.length s)%nat ->
  substring 0 k (String.append s t) = substring 0 k s.
Proof.
  revert k. induction s as [|a s IH]; intros [|k]; simpl; intros Hk;
    try reflexivity; try lia.
  - destruct t; reflexivity.
  - rewrite IH by lia. reflexivity.
Qed.

Lemma shorten_truncated_from (caption s : string) :
  truncated_from caption s -> truncated_from caption (shorten s).
Proof.
  unfold truncated_from, shorten. intros Hs. right.
  destruct Hs as [-> | (pre & suf & -> & ->)].
  - destruct (substring_0_prefix (String.length caption - 4) caption) as [suf E].
    exists (substring 0 (String.length caption - 4) caption), suf. auto.
  - rewrite string_append_length. simpl String.length.
    rewrite substring_0_append by lia.
    destruct (substring_0_prefix (String.length pre + 3 - 4) pre) as [suf0 E].
    exists (substring 0 (String.length pre + 3 - 4) pre), (String.append suf0 suf).
    split; [|reflexivity]. rewrite <- string_append_assoc, <- E. reflexivity.
Qed.

Section CaptionLoop.

Variables (text_bbox : Z -> string -> Z * Z * Z * Z) (font_size max_width : Z).

Lemma loop_runs_exit (st st' : string * Z) :
  loop_runs text_bbox font_size max_width st st' ->
  keep_truncating max_width st' = false.
Proof. induction 1; assumption. Qed.

Lemma loop_runs_measured (st st' : string * Z) :
  loop_runs text_bbox font_size max_width st st' ->
  snd st = bbox_width (text_bbox font_size (fst st)) ->
  snd st' = bbox_width (text_bbox font_size (fst st')).
Proof. induction 1 as [st _ | st st' _ _ IH]; [auto|]. intros _. apply IH. reflexivity. Qed.

Lemma loop_runs_truncated_from (caption : string) (st st' : string * Z) :
  loop_runs text_bbox font_size max_width st st' ->
  truncated_from caption (fst st) -> truncated_from caption (fst st').
Proof.
  induction 1 as [st _ | st st' _ _ IH]; [auto|].
  intros Hs. apply IH. apply shorten_truncated_from. exact Hs.
Qed.

End CaptionLoop.

Lemma add_caption_to_image_drawn (text_bbox : Z -> string -> Z * Z * Z * Z)
    (im : image) (caption : string) (font_size : Z) (text_color : rgb)
    (bg_opacity : Z) :
  skip_caption caption = false ->
  exists st,
    (bbox_width (text_bbox font_size caption) <= width im - 20 ->
       st = (caption, bbox_width (text_bbox font_size caption))) /\
    loop_runs text_bbox font_size (width im - 20)
      (caption, bbox_width (text_bbox font_size caption)) st /\
    (String.length (fst st) <= String.length caption)%nat /\
    add_caption_to_image text_bbox im caption font_size text_color bg_opacity =
      Captioned im (fst st) ((width im - snd st) / 2)
        (height im - bbox_height (text_bbox font_size caption) - 6 * 2 - 5 + 6)
        (height im - bbox_height (text_bbox font_size caption) - 6 * 2 - 5)
        font_size text_color bg_opacity.
Proof.
  intros Hskip. unfold add_caption_to_image. rewrite Hskip.
  destruct (width im - 20 <? bbox_width (text_bbox font_size caption)) eqn:Hlt.
  - destruct (truncate_loop_runs text_bbox font_size (width im - 20)
                (String.length caption)
                (caption, bbox_width (text_bbox font_size caption)))
      as [Hr Hle]; [simpl; lia|].
    eexists. split; [intros Hfit; apply Z.ltb_lt in Hlt; lia|].
    split; [exact Hr|]. split; [exact Hle|]. reflexivity.
  - exists (caption, bbox_width (text_bbox font_size caption)).
    split; [reflexivity|]. split; [|split; [simpl; lia | reflexivity]].
    apply loop_exit. unfold keep_truncating. apply Z.ltb_ge in Hlt.
    simpl. apply andb_false_iff. left. apply Z.ltb_ge. lia.
Qed.

(** When [add_caption_to_image] draws a caption, the text it draws (the
    caption after truncation) either fits the image with a margin of at
    least 10 pixels on both sides, centred by [(width - text_width) // 2],
    or has been cut down to at most 10 characters, where the truncation
    loop stops even if the text is still too wide. *)
Theorem add_caption_to_image_text_placement
    (text_bbox : Z -> string -> Z * Z * Z * Z) (im : image) (caption : string)
    (font_size : Z) (text_color : rgb) (bg_opacity : Z) :
  skip_caption caption = false ->
  exists drawn text_x text_y bg_top,
    add_caption_to_image text_bbox im caption font_size text_color bg_opacity =
      Captioned im drawn text_x text_y bg_top font_size text_color bg_opacity /\
    ((10 <= text_x /\
      text_x + bbox_width (text_bbox font_size drawn) <= width im - 10) \/
     (String.length drawn <= 10)%nat).
Proof.
  intros Hskip.
  destruct (add_caption_to_image_drawn text_bbox im caption font_size text_color
              bg_opacity Hskip) as (st & _ & Hr & _ & ->).
  do 4 eexists. split; [reflexivity|].
  pose proof (loop_runs_exit _ _ _ _ _ Hr) as Hx.
  pose proof (loop_runs_measured _ _ _ _ _ Hr eq_refl) as Hm.
  unfold keep_truncating in Hx. apply andb_false_iff in Hx as [Hw | Hl].
  - left. apply Z.ltb_ge in Hw. rewrite <- Hm.
    split.
    + apply Z.div_le_lower_bound; lia.
    + assert (2 * ((width im - snd st) / 2) <= width im - snd st)
        by (apply Z.mul_div_le; lia).
      lia.
  - right. apply Nat.ltb_ge in Hl. exact Hl.
Qed.

(** The caption [add_caption_to_image] draws is the given caption when its
    measured width fits in [width - 20]; otherwise it is the given caption
    or a prefix of it followed by "...", never longer than the given
    caption. *)
Theorem add_caption_to_image_truncated_caption
    (text_bbox : Z -> string -> Z * Z * Z * Z) (im : image) (caption : string)
    (font_size : Z) (text_color : rgb) (bg_opacity : Z) :
  skip_caption caption = false ->
  exists drawn text_x text_y bg_top,
    add_caption_to_image text_bbox im caption font_size text_color bg_opacity =
      Captioned im drawn text_x text_y bg_top font_size text_color bg_opacity /\
    (bbox_width (text_bbox font_size caption) <= width im - 20 -> drawn = caption) /\
    (String.length drawn <= String.length caption)%nat /\
    (drawn = caption \/
     exists pre suf, caption = String.append pre suf /\
                     drawn = String.append pre "...").
Proof.
  intros Hskip.
  destruct (add_caption_to_image_drawn text_bbox im caption font_size text_color
              bg_opacity Hskip) as (st & Hfit & Hr & Hle & ->).
  do 4 eexists. split; [reflexivity|].
  split; [intros H; rewrite (Hfit H); reflexivity|].
  split; [exact Hle|].
  apply (loop_runs_truncated_from _ _ _ caption _ _ Hr). left. reflexivity.
Qed.

Lemma add_caption_to_image_text_placement_witness :
  skip_caption "a caption far too long for the cell"%string = false /\
  exists drawn text_x text_y bg_top,
    add_caption_to_image (fun _ s => (0, 0, 10 * Z.of_nat (String.length s), 14))
      (Source 0 200 200) "a caption far too long for the cell"%string 14
      (255, 255, 255) 180 =
      Captioned (Source 0 200 200) drawn text_x text_y bg_top 14 (255, 255, 255) 180 /\
    ((10 <= text_x /\
      text_x + bbox_width ((fun _ s => (0, 0, 10 * Z.of_nat (String.length s), 14))
                             14 drawn) <= width (Source 0 200 200) - 10) \/
     (String.length drawn <= 10)%nat).
Proof.
  split; [reflexivity|].
  apply (add_caption_to_image_text_placement
           (fun _ s => (0, 0, 10 * Z.of_nat (String.length s), 14))
           (Source 0 200 200) "a caption far too long for the cell"%string 14
           (255, 255, 255) 180).
  reflexivity.
Defined.

Lemma add_caption_to_image_truncated_caption_witness :
  skip_caption "a caption far too long for the cell"%string = false /\
  exists drawn text_x text_y bg_top,
    add_caption_to_image (fun _ s => (0, 0, 10 * Z.of_nat (String.length s), 14))
      (Source 0 200 200) "a caption far too long for the cell"%string 14
      (255, 255, 255) 180 =
      Captioned (Source 0 200 200) drawn text_x text_y bg_top 14 (255, 255, 255) 180 /\
    (bbox_width ((fun _ s => (0, 0, 10 * Z.of_nat (String.length s), 14)) 14
                   "a caption far too long for the cell"%string)
       <= width (Source 0 200 200) - 20 ->
     drawn = "a caption far too long for the cell"%string) /\
    (String.length drawn <= String.length "a caption far too long for the cell")%nat /\
    (drawn = "a caption far too long for the cell"%string \/
     exists pre suf, "a caption far too long for the cell"%string = String.append pre suf /\
                     drawn = String.append pre "...").
Proof.
  split; [reflexivity|].
  apply (add_caption_to_image_truncated_caption
           (fun _ s => (0, 0, 10 * Z.of_nat (String.length s), 14))
           (Source 0 200 200) "a caption far too long for the cell"%string 14
           (255, 255, 255) 180).
  reflexivity.
Defined.

(** *** Degenerate cells *)

Lemma resize_image_to_cell_none (im : image) (cell_size : Z * Z) (bw : Z) :
  0 < width im -> 0 < height im ->
  fst cell_size - 2 * bw < 0 \/ snd cell_size - 2 * bw <= 0 ->
  resize_image_to_cell im cell_size bw = None.
Proof.
  intros Hw Hh Ht. unfold resize_image_to_cell, scaled_size, frac_gt.
  set (tw := fst cell_size - 2 * bw) in *. set (th := snd cell_size - 2 * bw) in *.
  destruct (Z.eq_dec th 0) as [E0 | N0].
  { rewrite E0, Z.eqb_refl, orb_true_r. reflexivity. }
  replace ((height im =? 0) || (th =? 0)) with false
    by (symmetry; apply orb_false_iff; split; apply Z.eqb_neq; lia).
  destruct (0 <? height im * th) eqn:Hs.
  - (* th > 0, so tw < 0 *)
    apply Z.ltb_lt in Hs. assert (Htw : tw < 0) by (destruct Ht; nia).
    replace (tw * height im <? width im * th) with true
      by (symmetry; apply Z.ltb_lt; nia).
    simpl fst; simpl snd. unfold pil_resize.
    destruct (_ && _); [|destruct (_ || _); [reflexivity|]];
      unfold pil_crop; replace (_ + tw <? _) with true
        by (symmetry; apply Z.ltb_lt; lia); reflexivity.
  - (* th < 0 *)
    apply Z.ltb_ge in Hs. assert (Hth : th < 0) by nia.
    destruct (width im * th <? tw * height im) eqn:Hc.
    + simpl fst; simpl snd. unfold pil_resize.
      replace (snd (size im) =? th) with false
        by (symmetry; apply Z.eqb_neq; unfold height in Hh; lia).
      rewrite andb_false_r.
      replace (th <? 1) with true by (symmetry; apply Z.ltb_lt; lia).
      rewrite orb_true_r. reflexivity.
    + apply Z.ltb_ge in Hc. assert (Htw : tw < 0) by nia.
      replace (width im =? 0) with false by (symmetry; apply Z.eqb_neq; lia).
      simpl fst; simpl snd. unfold pil_resize.
      replace (fst (size im) =? tw) with false
        by (symmetry; apply Z.eqb_neq; unfold width in Hw; lia).
      simpl. replace (tw <? 1) with true by (symmetry; apply Z.ltb_lt; lia).
      reflexivity.
Qed.

Lemma run_cells_none (text_bbox : Z -> string -> Z * Z * Z * Z)
    (anchor_image : image) (panels : list image) (thoughts : list string)
    (config : LayoutConfig) (cell_size anchor_rc rc : Z * Z) (cells : list (Z * Z)) :
  In rc cells ->
  (forall st, compose_cell text_bbox anchor_image panels thoughts config cell_size
                anchor_rc st rc = None) ->
  forall st, run_cells text_bbox anchor_image panels thoughts config cell_size
               anchor_rc cells st = None.
Proof.
  intros Hin Hnone. induction cells as [|rc' cells IH]; [contradiction|].
  intros st. simpl. destruct Hin as [-> | Hin].
  - rewrite Hnone. reflexivity.
  - destruct (compose_cell _ _ _ _ _ _ _ st rc'); [apply IH; exact Hin | reflexivity].
Qed.

Lemma compose_cell_anchor_none (text_bbox : Z -> string -> Z * Z * Z * Z)
    (anchor_image : image) (panels : list image) (thoughts : list string)
    (config : LayoutConfig) (cell_size anchor_rc : Z * Z) (st : nat * image) :
  resize_image_to_cell anchor_image cell_size (border_width config) = None ->
  compose_cell text_bbox anchor_image panels thoughts config cell_size anchor_rc st
    anchor_rc = None.
Proof.
  intros H. destruct st as [pi cv], anchor_rc as [ar ac].
  unfold compose_cell. rewrite !Z.eqb_refl. simpl. rewrite H. reflexivity.
Qed.

Lemma anchor_in_grid_cells (layout : LayoutType) (pos : AnchorPosition) :
  In (get_anchor_grid_position pos (fst (get_layout_grid layout))
        (snd (get_layout_grid layout)))
     (grid_cells (fst (get_layout_grid layout)) (snd (get_layout_grid layout))).
Proof. destruct layout, pos; cbn -[grid_cells]; apply in_grid_cells; lia. Qed.

(** [resize_image_to_cell] fails (PIL raises, or the aspect division by a
    zero target height raises) for an image of positive size when the
    target width, cell width minus twice the border, is negative, or the
    target height is zero or negative. *)
Theorem resize_image_to_cell_rejects_degenerate_target (im : image)
    (cell_size : Z * Z) (border_width : Z) :
  0 < width im -> 0 < height im ->
  fst cell_size - 2 * border_width < 0 \/ snd cell_size - 2 * border_width <= 0 ->
  resize_image_to_cell im cell_size border_width = None.
Proof. exact (resize_image_to_cell_none im cell_size border_width). Qed.

Lemma resize_image_to_cell_rejects_degenerate_target_witness :
  (0 < width (Source 0 300 200) /\ 0 < height (Source 0 300 200) /\
   (fst (20, 8) - 2 * 4 < 0 \/ snd (20, 8) - 2 * 4 <= 0)) /\
  resize_image_to_cell (Source 0 300 200) (20, 8) 4 = None.
Proof.
  split; [unfold width, height; simpl; lia|].
  apply (resize_image_to_cell_rejects_degenerate_target (Source 0 300 200) (20, 8) 4);
    unfold width, height; simpl; lia.
Defined.

(** [compose_collage] fails, whatever the panels, when the anchor is a
    raster of positive size and the computed cells leave a negative target
    width or a non-positive target height once the border is taken off:
    the anchor cell is always on the grid and its resize fails. *)
Theorem compose_collage_fails_on_degenerate_cells
    (text_bbox : Z -> string -> Z * Z * Z * Z) (anchor_image : image)
    (panels : list image) (thoughts : list string) (config : LayoutConfig) :
  let rows := fst (get_layout_grid (layout_type config)) in
  let cols := snd (get_layout_grid (layout_type config)) in
  let cs := calculate_cell_size (output_size config) rows cols (padding config) in
  raster_ok anchor_image ->
  fst cs - 2 * border_width config < 0 \/ snd cs - 2 * border_width config <= 0 ->
  compose_collage text_bbox anchor_image panels thoughts config = None.
Proof.
  intros rows cols cs Ha Hdeg.
  assert (Hr : resize_image_to_cell anchor_image cs (border_width config) = None).
  { destruct anchor_image as [tag w h| | | | |]; try contradiction.
    simpl in Ha. apply resize_image_to_cell_none; unfold width, height; simpl;
      [lia|lia|exact Hdeg]. }
  pose proof (anchor_in_grid_cells (layout_type config) (anchor_position config))
    as Hin.
  unfold compose_collage.
  destruct (get_layout_grid (layout_type config)) as [r c] eqn:Eg.
  simpl in rows, cols, Hin. subst rows cols.
  destruct (new_image _ _ _); [|reflexivity].
  fold cs. rewrite (run_cells_none _ _ _ _ _ _ _ _ _ Hin); [reflexivity|].
  intros st. apply compose_cell_anchor_none. exact Hr.
Qed.

Lemma compose_collage_fails_on_degenerate_cells_witness :
  (raster_ok (Source 0 600 600) /\
   (fst (calculate_cell_size (10, 10) 2 2 (padding default_config))
      - 2 * border_width default_config < 0 \/
    snd (calculate_cell_size (10, 10) 2 2 (padding default_config))
      - 2 * border_width default_config <= 0)) /\
  compose_collage (fun _ _ => (0, 0, 40, 14)) (Source 0 600 600) [Source 1 400 300] []
    {| layout_type := GRID_2X2; anchor_position := TOP_LEFT; padding := 4;
       border_width := 2; border_color := (255, 255, 255);
       background_color := (30, 30, 30); output_size := (10, 10);
       show_captions := false; caption_font_size := 14;
       caption_color := (255, 255, 255); caption_bg_opacity := 180 |} = None.
Proof.
  split; [vm_compute; split; [split; reflexivity | left; reflexivity]|].
  apply (compose_collage_fails_on_degenerate_cells (fun _ _ => (0, 0, 40, 14))
           (Source 0 600 600) [Source 1 400 300] []
           {| layout_type := GRID_2X2; anchor_position := TOP_LEFT; padding := 4;
              border_width := 2; border_color := (255, 255, 255);
              background_color := (30, 30, 30); output_size := (10, 10);
              show_captions := false; caption_font_size := 14;
              caption_color := (255, 255, 255); caption_bg_opacity := 180 |});
    vm_compute; [split; reflexivity | left; reflexivity].
Defined.


(** *** The "Publish All" action *)

(** For "Publish All" with a Tile image and creatives that are all rasters
    of positive size, the collage is built; its first (top-left) cell shows
    the Tile image and the other cells show the creatives from the second
    one on, in order, then blank cells: three such cells for exactly four
    creatives (2x2 grid), two otherwise (1x3 row), so creatives beyond
    those are left out.  No caption is drawn. *)
Theorem publish_collage_cells (text_bbox : Z -> string -> Z * Z * Z * Z)
    (tal_image : image) (creatives : list (image * string)) :
  raster_ok tal_image -> Forall raster_ok (map fst creatives) ->
  let k := if Nat.eqb (List.length creatives) 4 then 3%nat else 2%nat in
  exists canvas,
    publish_collage text_bbox tal_image creatives = Some canvas /\
    pasted_contents canvas =
      Some tal_image ::
        map Some (firstn k (map fst (tl creatives))) ++
        repeat None (k - List.length (tl creatives)) /\
    (forall im x y, In (im, x, y) (pastes canvas) -> has_caption im = false).
Proof.
  intros Ht Hcr k.
  assert (Hps : Forall raster_ok (map fst (tl creatives))).
  { destruct creatives as [|c cr]; simpl in *; [constructor|].
    inversion Hcr; assumption. }
  unfold publish_collage.
  set (n := List.length creatives) in *.
  assert (Hl : layout_type (publish_config n) =
               if Nat.eqb n 4 then GRID_2X2 else ROW_1X3) by reflexivity.
  assert (Hgeo : 0 < fst (calculate_cell_size (output_size (publish_config n))
                           (fst (get_layout_grid (layout_type (publish_config n))))
                           (snd (get_layout_grid (layout_type (publish_config n))))
                           (padding (publish_config n)))
                     - 2 * border_width (publish_config n) /\
                 0 < snd (calculate_cell_size (output_size (publish_config n))
                           (fst (get_layout_grid (layout_type (publish_config n))))
                           (snd (get_layout_grid (layout_type (publish_config n))))
                           (padding (publish_config n)))
                     - 2 * border_width (publish_config n)).
  { rewrite Hl. destruct (Nat.eqb n 4); vm_compute; split; reflexivity. }
  destruct (compose_collage_layout text_bbox tal_image (map fst (tl creatives))
              (map snd (tl creatives)) (publish_config n)
              ltac:(simpl; lia) ltac:(simpl; lia) (proj1 Hgeo) (proj2 Hgeo) Ht Hps)
    as (canvas & Hc & Hpos & Hanc & Hf).
  exists canvas. split; [exact Hc|]. split.
  - assert (Hlen : List.length (pasted_contents canvas) =
                   List.length (grid_cells
                     (fst (get_layout_grid (layout_type (publish_config n))))
                     (snd (get_layout_grid (layout_type (publish_config n)))))).
    { unfold pasted_contents. rewrite length_map.
      apply (f_equal (@List.length _)) in Hpos. unfold pasted_positions in Hpos.
      rewrite !length_map in Hpos. exact Hpos. }
    change (anchor_position (publish_config n)) with TOP_LEFT in Hanc, Hf.
    rewrite Hl in Hanc, Hf, Hlen. unfold k. clear Hpos Hgeo Hc.
    assert (Hreq : Z.to_nat (get_required_panel_count
                               (if (n =? 4)%nat then GRID_2X2 else ROW_1X3)) =
                   if (n =? 4)%nat then 3%nat else 2%nat)
      by (destruct (n =? 4)%nat; reflexivity).
    rewrite Hreq, length_map in Hf. clear Hreq.
    remember (pasted_contents canvas) as pc eqn:Epc. clear Epc.
    destruct (n =? 4)%nat; cbn in Hanc, Hf, Hlen;
      destruct pc as [|c0 [|c1 [|c2 [|c3 [|c4 pc]]]]]; simpl in Hlen;
      try discriminate; cbn in Hf, Hanc |- *; rewrite <- Hf;
      f_equal; apply Hanc; left; reflexivity.
  - intros im x y Hin.
    destruct (compose_collage_cells _ _ _ _ _ _ Hc im x y Hin)
      as (cs & arc & st0 & st1 & rc & _ & Hcell & Hs).
    eapply compose_cell_no_caption; try eassumption; [reflexivity| |].
    + apply raster_ok_content; exact Ht.
    + eapply Forall_impl; [|exact Hps]. intros p Hp. apply raster_ok_content; exact Hp.
Qed.

Lemma publish_collage_cells_witness :
  (raster_ok (Source 0 800 800) /\
   Forall raster_ok (map fst [(Source 1 1024 1024, "one"%string);
                              (Source 2 1024 768, "two"%string);
                              (Source 3 768 1024, "three"%string);
                              (Source 4 1024 1024, "four"%string)])) /\
  let creatives := [(Source 1 1024 1024, "one"%string);
                    (Source 2 1024 768, "two"%string);
                    (Source 3 768 1024, "three"%string);
                    (Source 4 1024 1024, "four"%string)] in
  let k := if Nat.eqb (List.length creatives) 4 then 3%nat else 2%nat in
  exists canvas,
    publish_collage (fun _ _ => (0, 0, 40, 14)) (Source 0 800 800) creatives
      = Some canvas /\
    pasted_contents canvas =
      Some (Source 0 800 800) ::
        map Some (firstn k (map fst (tl creatives))) ++
        repeat None (k - List.length (tl creatives)) /\
    (forall im x y, In (im, x, y) (pastes canvas) -> has_caption im = false).
Proof.
  split; [split; [simpl; lia | repeat constructor; simpl; lia]|].
  apply (publish_collage_cells (fun _ _ => (0, 0, 40, 14)) (Source 0 800 800));
    [simpl; lia | repeat constructor; simpl; lia].
Defined.

(** *** Cell borders *)

Lemma compose_cell_border (text_bbox : Z -> string -> Z * Z * Z * Z)
    (anchor_image : image) (panels : list image) (thoughts : list string)
    (config : LayoutConfig) (cell_size anchor_rc : Z * Z) (st st1 : nat * image)
    (rc : Z * Z) (im : image) (x y : Z) :
  0 < border_width config ->
  compose_cell text_bbox anchor_image panels thoughts config cell_size anchor_rc
    st rc = Some st1 ->
  snd st1 = Pasted (snd st) im x y ->
  exists inner,
    im = Pasted (Blank (fst cell_size) (snd cell_size) (border_color config)) inner
           (border_width config) (border_width config) /\
    size inner = (fst cell_size - 2 * border_width config,
                  snd cell_size - 2 * border_width config).
Proof.
  intros Hbw. destruct st as [pi cv], rc as [row col], anchor_rc as [ar ac].
  cell_cases; simpl; intros E; inversion E; subst;
    try (apply Z.ltb_ge in Hb; lia);
    apply new_image_inv in Hbd as [-> _];
    eexists; (split; [reflexivity|]);
    match goal with
    | |- size (if ?c then _ else _) = _ => destruct c
    end; rewrite ?add_caption_to_image_size;
    repeat match goal with
    | H : new_image _ _ _ = Some _ |- _ => apply new_image_inv in H as [-> _]
    | H : resize_image_to_cell _ _ _ = Some _ |- _ =>
        apply resize_image_to_cell_size in H
    end; try exact Hci; reflexivity.
Qed.

(** With a positive border width, every cell image [compose_collage]
    pastes is a border-coloured block of the cell size with the cell's
    content, of the cell size minus twice the border, pasted at
    (border_width, border_width): a frame of exactly [border_width] pixels
    on each of the four sides. *)
Theorem compose_collage_cell_borders
    (text_bbox : Z -> string -> Z * Z * Z * Z) (anchor_image : image)
    (panels : list image) (thoughts : list string) (config : LayoutConfig)
    (canvas : image) :
  let cs := calculate_cell_size (output_size config)
              (fst (get_layout_grid (layout_type config)))
              (snd (get_layout_grid (layout_type config))) (padding config) in
  let bw := border_width config in
  0 < bw ->
  compose_collage text_bbox anchor_image panels thoughts config = Some canvas ->
  forall im x y, In (im, x, y) (pastes canvas) ->
    exists inner,
      im = Pasted (Blank (fst cs) (snd cs) (border_color config)) inner bw bw /\
      size inner = (fst cs - 2 * bw, snd cs - 2 * bw).
Proof.
  intros cs bw Hbw Hc im x y Hin.
  destruct (compose_collage_cells _ _ _ _ _ _ Hc im x y Hin)
    as (cs' & arc & st0 & st1 & rc & -> & Hcell & Hs).
  exact (compose_cell_border _ _ _ _ _ _ _ _ _ _ _ _ _ Hbw Hcell Hs).
Qed.

Lemma compose_collage_cell_borders_witness :
  exists canvas,
    compose_collage (fun _ _ => (0, 0, 40, 14)) (Source 0 600 600)
      [Source 1 400 300] [] default_config = Some canvas /\
    0 < border_width default_config /\
    (forall im x y, In (im, x, y) (pastes canvas) ->
      exists inner,
        im = Pasted (Blank (fst (calculate_cell_size (output_size default_config) 2 2
                                  (padding default_config)))
                           (snd (calculate_cell_size (output_size default_config) 2 2
                                  (padding default_config)))
                           (border_color default_config))
               inner (border_width default_config) (border_width default_config) /\
        size inner =
          (fst (calculate_cell_size (output_size default_config) 2 2
                  (padding default_config)) - 2 * border_width default_config,
           snd (calculate_cell_size (output_size default_config) 2 2
                  (padding default_config)) - 2 * border_width default_config)).
Proof.
  eexists. split; [reflexivity|]. split; [simpl; lia|].
  apply (compose_collage_cell_borders (fun _ _ => (0, 0, 40, 14))
           (Source 0 600 600) [Source 1 400 300] [] default_config);
    [simpl; lia | reflexivity].
Defined.

(** *** Which cells get a caption *)

Lemma add_caption_to_image_has_caption (text_bbox : Z -> string -> Z * Z * Z * Z)
    (im : image) (caption : string) (font_size : Z) (text_color : rgb)
    (bg_opacity : Z) :
  has_caption (add_caption_to_image text_bbox im caption font_size text_color
                 bg_opacity) =
  if skip_caption caption then has_caption im else true.
Proof. unfold add_caption_to_image. destruct (skip_caption caption); reflexivity. Qed.

Section CaptionFlags.

Variables (text_bbox : Z -> string -> Z * Z * Z * Z) (anchor_image : image)
  (panels : list image) (thoughts : list string) (config : LayoutConfig)
  (cell_size : Z * Z).

Hypothesis captions_on : show_captions config = true.
Hypothesis target_width_pos : 0 < fst cell_size - 2 * border_width config.
Hypothesis target_height_pos : 0 < snd cell_size - 2 * border_width config.
Hypothesis anchor_ok : raster_ok anchor_image.
Hypothesis panels_ok : Forall raster_ok panels.

Lemma compose_cell_panel_flag (row col ar ac : Z) (pi : nat) (collage panel : image) :
  (row =? ar) && (col =? ac) = false ->
  nth_error panels pi = Some panel ->
  exists im,
    compose_cell text_bbox anchor_image panels thoughts config cell_size (ar, ac)
      (pi, collage) (row, col) =
      Some (S pi, Pasted collage im
                    (fst (get_cell_position row col cell_size (padding config)))
                    (snd (get_cell_position row col cell_size (padding config)))) /\
    has_caption im = negb (skip_caption (thought_at thoughts pi)).
Proof.
  intros Hne Hnth.
  assert (Hp : raster_ok panel)
    by (rewrite Forall_forall in panels_ok; apply panels_ok; eapply nth_error_In; exact Hnth).
  assert (Hwh : 0 < width panel /\ 0 < height panel)
    by (destruct panel; simpl in Hp; try contradiction; exact Hp).
  destruct Hwh as [Hw Hh].
  destruct (resize_image_to_cell_ok panel cell_size (border_width config)
              Hw Hh target_width_pos target_height_pos) as (ci & Hci & _ & _ & Hk).
  assert (Hk0 : has_caption ci = false)
    by (rewrite Hk; exact (proj2 (raster_ok_content panel Hp))).
  unfold compose_cell. rewrite Hne, Hnth, Hci, captions_on.
  fold (thought_at thoughts pi). simpl andb.
  assert (Hin : has_caption
                  (if negb (String.eqb (thought_at thoughts pi) ""%string)
                   then add_caption_to_image text_bbox ci (thought_at thoughts pi)
                          (caption_font_size config) (caption_color config)
                          (caption_bg_opacity config)
                   else ci) = negb (skip_caption (thought_at thoughts pi))).
  { destruct (thought_at thoughts pi) as [|a t] eqn:Et; simpl; [exact Hk0|].
    rewrite add_caption_to_image_has_caption. simpl.
    destruct (Ascii.eqb a "["%char); simpl; [exact Hk0 | reflexivity]. }
  destruct (0 <? border_width config) eqn:Hb.
  - apply Z.ltb_lt in Hb. rewrite new_image_ok by lia.
    eexists. split; [reflexivity|]. simpl. exact Hin.
  - eexists. split; [reflexivity|]. exact Hin.
Qed.

Lemma compose_cell_blank_flag (row col ar ac : Z) (pi : nat) (collage : image) :
  (row =? ar) && (col =? ac) = false ->
  nth_error panels pi = None ->
  exists im,
    compose_cell text_bbox anchor_image panels thoughts config cell_size (ar, ac)
      (pi, collage) (row, col) =
      Some (pi, Pasted collage im
                  (fst (get_cell_position row col cell_size (padding config)))
                  (snd (get_cell_position row col cell_size (padding config)))) /\
    has_caption im = false.
Proof.
  intros Hne Hnth. unfold compose_cell. rewrite Hne, Hnth, captions_on.
  rewrite new_image_ok by lia. simpl.
  destruct (0 <? border_width config) eqn:Hb.
  - apply Z.ltb_lt in Hb. rewrite new_image_ok by lia.
    eexists. split; [reflexivity | reflexivity].
  - eexists. split; [reflexivity | reflexivity].
Qed.

Lemma run_cells_flags (ar ac : Z) (cells : list (Z * Z)) (pi : nat) (collage : image) :
  exists st' L,
    run_cells text_bbox anchor_image panels thoughts config cell_size (ar, ac)
      cells (pi, collage) = Some st' /\
    pastes (snd st') = pastes collage ++ L /\
    map snd (filter (fun e => negb (is_cell ar ac (fst e)))
               (combine cells (map (fun p => has_caption (fst (fst p))) L))) =
      map (fun i => negb (skip_caption (thought_at thoughts i)))
        (seq pi (Nat.min (non_anchor_count ar ac cells) (List.length panels - pi))) ++
      repeat false (non_anchor_count ar ac cells - (List.length panels - pi)).
Proof.
  revert pi collage.
  induction cells as [|[row col] cells IH]; intros pi collage.
  - exists (pi, collage), []. simpl. rewrite app_nil_r. auto.
  - unfold non_anchor_count. simpl filter.
    destruct (is_cell ar ac (row, col)) eqn:Hcell; simpl negb;
      unfold is_cell in Hcell; simpl fst in Hcell; simpl snd in Hcell.
    + apply andb_true_iff in Hcell as [E1 E2].
      apply Z.eqb_eq in E1, E2. subst row col.
      destruct (compose_cell_anchor text_bbox anchor_image panels thoughts config
                  cell_size target_width_pos target_height_pos ar ac pi collage
                  anchor_ok) as (im & Hc & _ & _).
      destruct (IH pi (Pasted collage im
                   (fst (get_cell_position ar ac cell_size (padding config)))
                   (snd (get_cell_position ar ac cell_size (padding config)))))
        as (st' & L & Hrun & HL & Hf).
      exists st', ((im, fst (get_cell_position ar ac cell_size (padding config)),
                    snd (get_cell_position ar ac cell_size (padding config))) :: L).
      cbn [run_cells]. rewrite Hc. split; [exact Hrun|].
      split; [rewrite HL; simpl; rewrite <- app_assoc; reflexivity|].
      simpl. unfold is_cell at 1. simpl. rewrite !Z.eqb_refl. simpl. exact Hf.
    + destruct (nth_error panels pi) as [p|] eqn:Hnth.
      * destruct (compose_cell_panel_flag row col ar ac pi collage p Hcell Hnth)
          as (im & Hc & Hk).
        destruct (IH (S pi) (Pasted collage im
                     (fst (get_cell_position row col cell_size (padding config)))
                     (snd (get_cell_position row col cell_size (padding config)))))
          as (st' & L & Hrun & HL & Hf).
        exists st', ((im, fst (get_cell_position row col cell_size (padding config)),
                      snd (get_cell_position row col cell_size (padding config))) :: L).
        cbn [run_cells]. rewrite Hc. split; [exact Hrun|].
        split; [rewrite HL; simpl; rewrite <- app_assoc; reflexivity|].
        simpl. unfold is_cell at 1. simpl. rewrite Hcell. simpl.
        rewrite Hf, Hk.
        assert (Hlt : (pi < List.length panels)%nat)
          by (apply nth_error_Some; rewrite Hnth; discriminate).
        replace (List.length panels - pi)%nat
          with (S (List.length panels - S pi)) by lia.
        simpl. reflexivity.
      * destruct (compose_cell_blank_flag row col ar ac pi collage Hcell Hnth)
          as (im & Hc & Hk).
        destruct (IH pi (Pasted collage im
                     (fst (get_cell_position row col cell_size (padding config)))
                     (snd (get_cell_position row col cell_size (padding config)))))
          as (st' & L & Hrun & HL & Hf).
        exists st', ((im, fst (get_cell_position row col cell_size (padding config)),
                      snd (get_cell_position row col cell_size (padding config))) :: L).
        cbn [run_cells]. rewrite Hc. split; [exact Hrun|].
        split; [rewrite HL; simpl; rewrite <- app_assoc; reflexivity|].
        simpl. unfold is_cell at 1. simpl. rewrite Hcell. simpl.
        rewrite Hf, Hk.
        apply nth_error_None in Hnth.
        replace (List.length panels - pi)%nat with 0%nat by lia.
        rewrite Nat.min_0_r, !Nat.sub_0_r. reflexivity.
Qed.

End CaptionFlags.

(** With captions enabled (and rasters of positive size as anchor and
    panels, and cells of positive target size), [compose_collage] draws a
    caption on the cell of the panel of index [i] exactly when
    [thoughts[i]] exists, is not empty and does not start with '[':
    among the cells other than the anchor cell, in row-major order, the
    first [min(required, len(panels))] carry the captions of the thoughts
    of the same index, and the remaining (blank) cells carry none. *)
Theorem compose_collage_caption_flags (text_bbox : Z -> string -> Z * Z * Z * Z)
    (anchor_image : image) (panels : list image) (thoughts : list string)
    (config : LayoutConfig) :
  let rows := fst (get_layout_grid (layout_type config)) in
  let cols := snd (get_layout_grid (layout_type config)) in
  let cs := calculate_cell_size (output_size config) rows cols (padding config) in
  let arc := get_anchor_grid_position (anchor_position config) rows cols in
  let n := Z.to_nat (get_required_panel_count (layout_type config)) in
  show_captions config = true ->
  0 <= fst (output_size config) -> 0 <= snd (output_size config) ->
  0 < fst cs - 2 * border_width config -> 0 < snd cs - 2 * border_width config ->
  raster_ok anchor_image -> Forall raster_ok panels ->
  exists canvas,
    compose_collage text_bbox anchor_image panels thoughts config = Some canvas /\
    map snd (filter (fun e => negb (is_cell (fst arc) (snd arc) (fst e)))
               (combine (grid_cells rows cols)
                  (map (fun p => has_caption (fst (fst p))) (pastes canvas)))) =
      map (fun i => negb (skip_caption (thought_at thoughts i)))
        (seq 0 (Nat.min n (List.length panels))) ++
      repeat false (n - List.length panels).
Proof.
  intros rows cols cs arc n Hshow Hw Hh Htw Hth Ha Hps.
  pose proof (non_anchor_count_grid (layout_type config) (anchor_position config))
    as Hcount. fold rows cols arc in Hcount. cbv zeta in Hcount.
  fold rows cols arc n in Hcount.
  destruct arc as [ar ac] eqn:Earc.
  destruct (run_cells_flags text_bbox anchor_image panels thoughts config cs
              Hshow Htw Hth Ha Hps ar ac (grid_cells rows cols) 0%nat
              (Blank (fst (output_size config)) (snd (output_size config))
                 (background_color config)))
    as (st' & L & Hrun & HL & Hf).
  exists (snd st'). split.
  - unfold compose_collage.
    destruct (get_layout_grid (layout_type config)) as [r c] eqn:Eg.
    simpl in rows, cols. subst rows cols.
    rewrite new_image_ok by assumption.
    fold cs arc. rewrite Earc, Hrun. reflexivity.
  - rewrite HL. simpl pastes. simpl app. simpl fst; simpl snd.
    rewrite Hf. simpl fst in Hcount; simpl snd in Hcount. rewrite Hcount.
    rewrite Nat.sub_0_r. reflexivity.
Qed.

Lemma compose_collage_caption_flags_witness :
  let config := {| layout_type := GRID_2X2; anchor_position := TOP_LEFT;
                   padding := 4; border_width := 2;
                   border_color := (255, 255, 255);
                   background_color := (30, 30, 30); output_size := (1080, 1080);
                   show_captions := true; caption_font_size := 14;
                   caption_color := (255, 255, 255); caption_bg_opacity := 180 |} in
  (show_captions config = true /\
   0 <= fst (output_size config) /\ 0 <= snd (output_size config) /\
   0 < fst (calculate_cell_size (output_size config) 2 2 (padding config))
       - 2 * border_width config /\
   0 < snd (calculate_cell_size (output_size config) 2 2 (padding config))
       - 2 * border_width config /\
   raster_ok (Source 0 600 600) /\
   Forall raster_ok [Source 1 400 300; Source 2 300 400]) /\
  exists canvas,
    compose_collage (fun _ _ => (0, 0, 40, 14)) (Source 0 600 600)
      [Source 1 400 300; Source 2 300 400] ["hello"%string; "[skip]"%string]
      config = Some canvas /\
    map snd (filter (fun e => negb (is_cell 0 0 (fst e)))
               (combine (grid_cells 2 2)
                  (map (fun p => has_caption (fst (fst p))) (pastes canvas)))) =
      map (fun i => negb (skip_caption
                            (thought_at ["hello"%string; "[skip]"%string] i)))
        (seq 0 (Nat.min 3 2)) ++ repeat false (3 - 2).
Proof.
  intros config.
  split; [split; [reflexivity|]; simpl; repeat split; try lia;
          repeat constructor; simpl; lia|].
  apply (compose_collage_caption_flags (fun _ _ => (0, 0, 40, 14))
           (Source 0 600 600) [Source 1 400 300; Source 2 300 400]
           ["hello"%string; "[skip]"%string] config);
    [reflexivity | simpl; lia | simpl; lia | simpl; lia | simpl; lia
    | simpl; lia | repeat constructor; simpl; lia].
Defined.
